(** * DepMap analysis notebook: correlation pair filter and gene-list subsetter

  A shallow embedding of [notebooks/DepMap Analysis - old.ipynb].

  - Correlations are IEEE-754 binary64 numbers, as in NumPy/pandas: the
    kernel's primitive [float], reasoned about through [Prim2SF].
  - A [DataFrame] is a labelled rectangular table, a MultiIndex [Series]
    an association list from label pairs to numbers (order and
    duplicates matter).
  - Text is a [string] of code points below U+0100; [str.strip] and
    [readlines] are modelled on all of them, [str.upper] on ASCII.
  - Calls into pandas that the notebook does not implement itself
    (the CSV and HDF5 codecs, [DataFrame.corr], the sorting algorithm
    behind [sort_values]) are parameters of the development. *)

From Stdlib Require Import Ascii String.
From Stdlib Require Import List Bool Arith Lia ZArith.
From Stdlib Require Import Permutation Sorted.
From Stdlib Require Import Floats.
Import ListNotations.

(* ================================================================= *)
(** ** Binary64 comparisons *)

Module F64.

Local Open Scope float_scope.

(** The two constants of the pair filter. Both are exact in binary64. *)
Definition one : float := 1.
Definition half : float := 0.5.

(** [x != y] of Python/NumPy: true on NaN. *)
Definition neb (x y : float) : bool := negb (x =? y).

(** [x > y]. *)
Definition gtb (x y : float) : bool := y <? x.

(** [x >= y]. *)
Definition geb (x y : float) : bool := y <=? x.

Definition not_nan (x : float) : Prop := is_nan x = false.

(** Case analysis on the integer comparisons inside [SFcompare]. *)
Ltac cmp_cases :=
  repeat match goal with
  | |- context [Pos.compare_cont Eq ?a ?b] =>
      change (Pos.compare_cont Eq a b) with (Pos.compare a b)
  | H : context [Pos.compare_cont Eq ?a ?b] |- _ =>
      change (Pos.compare_cont Eq a b) with (Pos.compare a b) in H
  end;
  repeat match goal with
  | H : context [(?a ?= ?b)%Z] |- _ =>
      destruct (Z.compare_spec a b); simpl in H; try discriminate H
  | H : context [(?a ?= ?b)%positive] |- _ =>
      destruct (Pos.compare_spec a b); simpl in H; try discriminate H
  end;
  repeat match goal with
  | |- context [(?a ?= ?b)%Z] =>
      destruct (Z.compare_spec a b); simpl; try reflexivity; try lia
  | |- context [(?a ?= ?b)%positive] =>
      destruct (Pos.compare_spec a b); simpl; try reflexivity; try lia
  end.

End F64.

(* ================================================================= *)
(** ** Labelled tables *)

Definition label := string.

(** A pandas [DataFrame] with one level of row and column labels. [values]
    holds the cells row by row. *)
Record DataFrame := mkDataFrame {
  index : list label;
  columns : list label;
  values : list (list float)
}.

Definition rectangular (df : DataFrame) : Prop :=
  length (values df) = length (index df) /\
  Forall (fun row => length row = length (columns df)) (values df).

(** [df.iloc[i, j]]; pandas pads a missing cell with NaN. *)
Definition iloc (df : DataFrame) (i j : nat) : float :=
  nth j (nth i (values df) []) nan.

(** [df.transpose()]. *)
Definition transpose (df : DataFrame) : DataFrame :=
  {| index := columns df;
     columns := index df;
     values := map (fun j => map (fun i => iloc df i j)
                                 (seq 0 (length (index df))))
                   (seq 0 (length (columns df))) |}.

(** [key in df] tests the column labels. *)
Definition contains (df : DataFrame) (key : label) : bool :=
  existsb (String.eqb key) (columns df).

(** A [Series] under a two-level MultiIndex. *)
Definition entry : Type := (label * label) * float.
Definition Series := list entry.

Definition enumerate {A : Type} (l : list A) : list (nat * A) :=
  combine (seq 0 (length l)) l.

(** [df.unstack()]: the columns become the outer index level, the rows the
    inner one, so the entry labelled [(c, r)] is the cell in row [r] of
    column [c]. *)
Definition unstack (df : DataFrame) : Series :=
  flat_map
    (fun jc : nat * label =>
       map (fun ir : nat * label =>
              ((snd jc, snd ir), iloc df (fst ir) (fst jc)))
           (enumerate (index df)))
    (enumerate (columns df)).

(** [s[cond(s)]]: boolean-mask selection keeps the index order. *)
Definition mask (p : float -> bool) (s : Series) : Series :=
  filter (fun e => p (snd e)) s.

(** [s.abs()]. *)
Definition series_abs (s : Series) : Series :=
  map (fun e => (fst e, abs (snd e))) s.

(** The entries of [s] under the outer label [key], in index order. *)
Definition entries_under (s : Series) (key : label) : Series :=
  filter (fun e => String.eqb key (fst (fst e))) s.

(** [s[keys]] on a MultiIndex series with a list of labels selects on the
    outer level: the entries under each key, in the order of the keys and
    once for each time a key is listed; [None] (a KeyError) when a listed
    key has no entry in the series. *)
Definition getitem_level0 (s : Series) (keys : list label)
    : option Series :=
  if forallb (fun key => existsb (fun e => String.eqb key (fst (fst e))) s)
             keys
  then Some (flat_map (entries_under s) keys)
  else None.

(** The positions of the columns labelled [key]. *)
Definition column_positions (df : DataFrame) (key : label) : list nat :=
  map fst (filter (fun jc => String.eqb key (snd jc)) (enumerate (columns df))).

(** [df[keys]] with a list of column labels: the columns in the order of
    the keys, [None] (a KeyError) when a key is no column. *)
Definition getitem_columns (df : DataFrame) (keys : list label)
    : option DataFrame :=
  if forallb (contains df) keys then
    let js := flat_map (column_positions df) keys in
    Some {| index := index df;
            columns := map (fun j => nth j (columns df) EmptyString) js;
            values := map (fun row => map (fun j => nth j row nan) js)
                          (values df) |}
  else None.

(** Descending order of the values, and series free of NaN. *)
Definition desc (a b : entry) : Prop := F64.geb (snd a) (snd b) = true.
Definition nan_free (s : Series) : Prop :=
  Forall (fun e => F64.not_nan (snd e)) s.

(** What [Series.sort_values(ascending=False)] promises, whatever the
    algorithm (pandas defaults to an unstable quicksort). *)
Record sorts_descending (sort : Series -> Series) : Prop := {
  sort_perm : forall s, Permutation (sort s) s;
  sort_sorted : forall s, nan_free s -> StronglySorted desc (sort s)
}.

Arguments sort_perm {sort} _ s.
Arguments sort_sorted {sort} _ s _.

(** The pandas entry points whose implementation lies outside the
    notebook. A codec answers with a table or with the message of the
    exception it raises. *)
Class Pandas := {
  (** [pd.read_csv(_, index_col=0, header=0)] on the text of a file *)
  parse_csv : string -> string + DataFrame;
  (** [pd.read_hdf(_, key)] on the bytes of a file *)
  hdf_get : string -> string -> string + DataFrame;
  (** [df.to_hdf(_, key)] in the default append mode: the new bytes, from
      the old ones if any, or the message of the exception raised on old
      bytes that do not open as an HDF5 file *)
  hdf_put : option string -> string -> DataFrame -> string + string;
  (** [df.corr()], Pearson *)
  pearson : DataFrame -> DataFrame;
  (** [s.sort_values(ascending=False)] *)
  sort_values_desc : Series -> Series
}.

(* ================================================================= *)
(** ** The pair filter (notebook cell 3) *)

(** [corr_list = corr.unstack()]
    [large_corr = corr_list[corr_list != 1.0]]
    [large_corr = large_corr[large_corr.abs() > 0.5]] *)
Definition large_corr (corr : DataFrame) : Series :=
  let corr_list := unstack corr in
  let large_corr := mask (fun x => F64.neb x F64.one) corr_list in
  mask (fun x => F64.gtb (abs x) F64.half) large_corr.

(** [sort_corrs = large_corr.abs().sort_values(ascending=False)] *)
Definition sort_corrs `{Pandas} (corr : DataFrame) : Series :=
  sort_values_desc (series_abs (large_corr corr)).

(** The predicate the two masks amount to. *)
Definition keeps (x : float) : bool :=
  F64.neb x F64.one && F64.gtb (abs x) F64.half.

(** Two values agree when they are identical or compare equal with
    [==]. *)
Definition same_value (x y : float) : Prop :=
  x = y \/ (x =? y)%float = true.

(** A correlation matrix: square with the same labels on both axes, the
    labels unique identifiers as the data model has them, ones on the
    diagonal, symmetric. *)
Record correlation_matrix (df : DataFrame) : Prop := {
  cm_rect : rectangular df;
  cm_square : index df = columns df;
  cm_labels : NoDup (columns df);
  cm_diag : forall i, i < length (columns df) ->
            (iloc df i i =? F64.one)%float = true;
  cm_sym : forall i j, i < length (columns df) -> j < length (columns df) ->
           same_value (iloc df i j) (iloc df j i)
}.

Arguments cm_rect {df} _.
Arguments cm_square {df} _.
Arguments cm_labels {df} _.
Arguments cm_diag {df} _ i _.
Arguments cm_sym {df} _ i j _ _.

(** [corr] holds [x] in row [r] of column [c]. *)
Definition corr_at (corr : DataFrame) (c r : label) (x : float) : Prop :=
  In ((c, r), x) (unstack corr).

(* ================================================================= *)
(** ** Text *)

Definition LF : ascii := "010"%char.
Definition CR : ascii := "013"%char.

(** [str.isspace] on the code points below U+0100: tab to carriage
    return, the four separators FS, GS, RS, US, the space, the next-line
    control U+0085 and the no-break space U+00A0. *)
Definition isspace (c : ascii) : bool :=
  let n := nat_of_ascii c in
  ((9 <=? n) && (n <=? 13)) || ((28 <=? n) && (n <=? 32))
  || (n =? 133) || (n =? 160).

Definition islower_char (c : ascii) : bool :=
  let n := nat_of_ascii c in (97 <=? n) && (n <=? 122).

Definition upper_char (c : ascii) : ascii :=
  if islower_char c then ascii_of_nat (nat_of_ascii c - 32) else c.

(** [s.upper()] on ASCII text: the letters a to z change, every other
    code point stays. Python also maps the cased letters beyond ASCII
    (U+00E9 to U+00C9, U+00DF to SS, ...); what depends on the letters
    changed is therefore stated for ASCII text, see [ascii_text]. A code
    point without an upper-case form, such as the ordinal indicator
    U+00AA, stays in Python as it does here. *)
Fixpoint upper (s : string) : string :=
  match s with
  | EmptyString => EmptyString
  | String c s' => String (upper_char c) (upper s')
  end.

(** No character of [s] is one of the letters a to z. *)
Fixpoint no_lower (s : string) : bool :=
  match s with
  | EmptyString => true
  | String c s' => negb (islower_char c) && no_lower s'
  end.

Fixpoint lstrip (s : string) : string :=
  match s with
  | EmptyString => EmptyString
  | String c s' => if isspace c then lstrip s' else s
  end.

Fixpoint rstrip (s : string) : string :=
  match s with
  | EmptyString => EmptyString
  | String c s' =>
      match rstrip s' with
      | EmptyString => if isspace c then EmptyString else String c EmptyString
      | t => String c t
      end
  end.

(** [s.strip()]. *)
Definition strip (s : string) : string := rstrip (lstrip s).

(** Every code point of [s] is below U+0080. *)
Fixpoint ascii_text (s : string) : bool :=
  match s with
  | EmptyString => true
  | String c s' => (nat_of_ascii c <? 128) && ascii_text s'
  end.

(** [c.islower()] for a code point below U+0100: the letters a to z, the
    ordinal indicators U+00AA and U+00BA, the micro sign U+00B5, and
    U+00DF to U+00FF but for the division sign U+00F7. *)
Definition py_islower (c : ascii) : bool :=
  let n := nat_of_ascii c in
  ((97 <=? n) && (n <=? 122)) || (n =? 170) || (n =? 181) || (n =? 186)
  || ((223 <=? n) && (n <=? 246)) || ((248 <=? n) && (n <=? 255)).

(** No character of [s] is lower case: [s] is entirely upper case as far
    as it has letters. *)
Fixpoint entirely_upper (s : string) : bool :=
  match s with
  | EmptyString => true
  | String c s' => negb (py_islower c) && entirely_upper s'
  end.

(** Every character of [s] is white space. *)
Fixpoint all_space (s : string) : bool :=
  match s with
  | EmptyString => true
  | String c s' => isspace c && all_space s'
  end.

Definition first_char (s : string) : option ascii :=
  match s with
  | EmptyString => None
  | String c _ => Some c
  end.

Fixpoint last_char (s : string) : option ascii :=
  match s with
  | EmptyString => None
  | String c EmptyString => Some c
  | String _ s' => last_char s'
  end.

(** The white space of Python below U+0100, code point by code point:
    the characters for which [str.isspace] holds. *)
Definition white_space : list ascii :=
  map ascii_of_nat [9; 10; 11; 12; 13; 28; 29; 30; 31; 32; 133; 160].

Definition is_white (c : ascii) : bool := existsb (Ascii.eqb c) white_space.

Fixpoint all_white (s : string) : bool :=
  match s with
  | EmptyString => true
  | String c s' => is_white c && all_white s'
  end.

(** [body] is [line] without the white space at its two ends. *)
Definition stripped_of (line body : string) : Prop :=
  exists pre post,
    line = append pre (append body post) /\
    all_white pre = true /\ all_white post = true /\
    (forall c, first_char body = Some c -> is_white c = false) /\
    (forall c, last_char body = Some c -> is_white c = false).

(** Text mode with universal newlines: CR LF and a lone CR read as LF. *)
Fixpoint universal_newlines (s : string) : string :=
  match s with
  | EmptyString => EmptyString
  | String c s' =>
      if Ascii.eqb c CR then
        match s' with
        | String c' s'' =>
            if Ascii.eqb c' LF then String LF (universal_newlines s'')
            else String LF (universal_newlines s')
        | EmptyString => String LF EmptyString
        end
      else String c (universal_newlines s')
  end.

(** The lines of a text, each with its terminator. *)
Fixpoint split_lines (s : string) : list string :=
  match s with
  | EmptyString => []
  | String c s' =>
      if Ascii.eqb c LF then String c EmptyString :: split_lines s'
      else match split_lines s' with
           | [] => [String c EmptyString]
           | l :: ls => String c l :: ls
           end
  end.

(** What [f.readlines()] returns for a file holding [content]. *)
Definition lines_of (content : string) : list string :=
  split_lines (universal_newlines content).

(* ================================================================= *)
(** ** The gene lists (notebook cell 4) *)

(** [prior_genes = [line.strip() for line in f.readlines()]] *)
Definition prior_genes_of (lines : list string) : list label :=
  map strip lines.

(** One turn of the loop over the lines of [metabolic_genes.txt]:
    [gene_name = line.strip().upper()]
    [if gene_name in data: metab_genes.append(gene_name)] *)
Definition metab_step (data : DataFrame) (metab_genes : list label)
    (line : string) : list label :=
  let gene_name := upper (strip line) in
  if contains data gene_name then metab_genes ++ [gene_name]
  else metab_genes.

Definition metab_genes_of (data : DataFrame) (lines : list string)
    : list label :=
  fold_left (metab_step data) lines [].

(** The names written in a gene-list file, one per line. *)
Definition names_in_file (content : string) : list label :=
  map strip (lines_of content).

(** [metab_genes] for a file [metabolic_genes.txt] holding [content]. *)
Definition metab_genes_from (data : DataFrame) (content : string)
    : list label :=
  metab_genes_of data (lines_of content).

(* ================================================================= *)
(** ** Files, exceptions and cells *)

Inductive exn :=
| FileNotFoundError (path : string)
| CodecError (path : string) (message : string)
| KeyError.

Inductive event :=
| EvRead (path : string)
| EvWrite (path : string)
| EvCorr.

(** The files of the working directory and the log of what was done. *)
Record world := mkWorld {
  files : string -> option string;
  trace : list event
}.

(** A computation either returns or raises; what it did before raising
    stays done. *)
Definition Cell (A : Type) : Type := world -> world * (exn + A).

Definition ret {A : Type} (a : A) : Cell A := fun w => (w, inr a).

Definition raise {A : Type} (e : exn) : Cell A := fun w => (w, inl e).

Definition bind {A B : Type} (c : Cell A) (k : A -> Cell B) : Cell B :=
  fun w =>
    match c w with
    | (w', inr a) => k a w'
    | (w', inl e) => (w', inl e)
    end.

Declare Scope cell_scope.
Delimit Scope cell_scope with cell.
Notation "x <- c ;; k" := (bind c (fun x => k))
  (at level 61, c at next level, right associativity) : cell_scope.
Notation "c ;;; k" := (bind c (fun _ => k))
  (at level 61, right associativity) : cell_scope.
Local Open Scope cell_scope.

(** The world after one more logged event. *)
Definition logged (w : world) (e : event) : world :=
  {| files := files w; trace := trace w ++ [e] |}.

Definition emit (e : event) : Cell unit := fun w => (logged w e, inr tt).

(** Opening a file for reading and reading all of it. *)
Definition read_file (path : string) : Cell string :=
  emit (EvRead path) ;;;
  fun w => match files w path with
           | Some content => (w, inr content)
           | None => (w, inl (FileNotFoundError path))
           end.

(** Writing a file whose new bytes depend on the old ones; when they
    cannot be produced the file stays as it was. *)
Definition write_file (path : string)
    (new : option string -> string + string) : Cell unit :=
  emit (EvWrite path) ;;;
  fun w =>
    match new (files w path) with
    | inl message => (w, inl (CodecError path message))
    | inr bytes =>
        ({| files := fun p => if String.eqb p path then Some bytes
                              else files w p;
            trace := trace w |}, inr tt)
    end.

Definition decoded {A : Type} (path : string) (r : string + A) : Cell A :=
  match r with
  | inl message => raise (CodecError path message)
  | inr a => ret a
  end.

Definition or_key_error {A : Type} (r : option A) : Cell A :=
  match r with
  | Some a => ret a
  | None => raise KeyError
  end.

(** Where a cell leaves the world, how it ends, and what it logged. *)
Definition after {A : Type} (c : Cell A) (w : world) : world := fst (c w).

Definition outcome {A : Type} (c : Cell A) (w : world) : exn + A :=
  snd (c w).

Definition cell_events {A : Type} (c : Cell A) (w : world) : list event :=
  skipn (length (trace w)) (trace (after c w)).

Definition csv_path : string := "portal-Avana-2018-06-08.csv".
Definition cache_path : string := "correlations.h5".
Definition cache_key : string := "correlations".
Definition prior_path : string := "prior_genes.txt".
Definition metab_path : string := "metabolic_genes.txt".

(** The value of the switch as the notebook is written. *)
Definition recalculate : bool := false.

Record Results := mkResults {
  r_data : DataFrame;
  r_corr : DataFrame;
  r_large_corr : Series;
  r_sort_corrs : Series;
  r_prior_genes : list label;
  r_metab_genes : list label;
  r_prior_corrs : Series;
  r_metab_data : DataFrame;
  r_metab_corr : DataFrame;
  r_mlarge_corr : Series;
  r_msort_corrs : Series
}.

Section Notebook.

Context `{Pandas}.

Definition pd_read_csv (path : string) : Cell DataFrame :=
  content <- read_file path ;; decoded path (parse_csv content).

Definition pd_read_hdf (path key : string) : Cell DataFrame :=
  content <- read_file path ;; decoded path (hdf_get content key).

Definition to_hdf (df : DataFrame) (path key : string) : Cell unit :=
  write_file path (fun old => hdf_put old key df).

Definition corr_of (df : DataFrame) : Cell DataFrame :=
  emit EvCorr ;;; ret (pearson df).

(** [with open(path, 'rt') as f: ... f.readlines()] *)
Definition readlines (path : string) : Cell (list string) :=
  content <- read_file path ;; ret (lines_of content).

(** Cell 1: [data = pd.read_csv(...)], [data = data.transpose()]; the two
    imports above them are not modelled. *)
Definition load_cell : Cell DataFrame :=
  data <- pd_read_csv csv_path ;; ret (transpose data).

(** Cell 2: the correlation cache, under the switch [recalc]. *)
Definition cache_cell (recalc : bool) (data : DataFrame) : Cell DataFrame :=
  if recalc then
    corr <- corr_of data ;;
    to_hdf corr cache_path cache_key ;;;
    ret corr
  else
    pd_read_hdf cache_path cache_key.

(** Cell 4: both gene lists. *)
Definition gene_lists_cell (data : DataFrame)
    : Cell (list label * list label) :=
  lines <- readlines prior_path ;;
  let prior_genes := prior_genes_of lines in
  lines <- readlines metab_path ;;
  ret (prior_genes, metab_genes_of data lines).

(** The cells from the loader to the second pair filter, run in order; the
    first exception ends the run. The cells after them only display
    values. *)
Definition run_all (recalc : bool) : Cell Results :=
  data <- load_cell ;;
  corr <- cache_cell recalc data ;;
  let large := large_corr corr in
  let sorted := sort_corrs corr in
  genes <- gene_lists_cell data ;;
  let metab_genes := snd genes in
  prior_corrs <- or_key_error (getitem_level0 large metab_genes) ;;
  metab_data <- or_key_error (getitem_columns data metab_genes) ;;
  metab_corr <- corr_of metab_data ;;
  ret {| r_data := data; r_corr := corr;
         r_large_corr := large; r_sort_corrs := sorted;
         r_prior_genes := fst genes; r_metab_genes := metab_genes;
         r_prior_corrs := prior_corrs;
         r_metab_data := metab_data; r_metab_corr := metab_corr;
         r_mlarge_corr := large_corr metab_corr;
         r_msort_corrs := sort_corrs metab_corr |}.

End Notebook.

(* ================================================================= *)
(** ** Concrete instances for the examples *)

(** An insertion sort, one implementation of the sorting contract. *)
Fixpoint insert_desc (e : entry) (s : Series) : Series :=
  match s with
  | [] => [e]
  | h :: t => if F64.geb (snd e) (snd h) then e :: s else h :: insert_desc e t
  end.

Definition isort_desc (s : Series) : Series := fold_right insert_desc [] s.

(** The 3x3 example of the specification; the literals are rounded to the
    nearest binary64 number, as Python reads them. *)
#[warnings="-inexact-float"]
Definition example_corr : DataFrame :=
  {| index := ["A"; "B"; "C"]%string;
     columns := ["A"; "B"; "C"]%string;
     values := [[1; 0.6; 0.2]; [0.6; 1; -0.7]; [0.2; -0.7; 1]]%float |}.

#[warnings="-inexact-float"]
Definition entry_BC : entry := (("B", "C")%string, 0.7%float).

#[warnings="-inexact-float"]
Definition entry_AB : entry := (("A", "B")%string, 0.6%float).

(** Two genes with the same profile correlate with exactly 1.0. *)
Definition twin_corr : DataFrame :=
  {| index := ["A"; "B"]%string;
     columns := ["A"; "B"]%string;
     values := [[1; 1]; [1; 1]]%float |}.

(** A table in which one label names two genes. *)
#[warnings="-inexact-float"]
Definition homonym_corr : DataFrame :=
  {| index := ["A"; "A"]%string;
     columns := ["A"; "A"]%string;
     values := [[1; 0.8]; [0.8; 1]]%float |}.

(** A stand-in for pandas in which every file holds one fixed table. *)
#[local] Instance toy_pandas : Pandas := {
  parse_csv := fun _ => inr example_corr;
  hdf_get := fun _ _ => inr example_corr;
  hdf_put := fun _ _ _ => inr "hdf"%string;
  pearson := fun df => df;
  sort_values_desc := isort_desc
}.

(** A stand-in that tells an HDF5 file from another: only the bytes it
    wrote itself open, for reading and for appending. *)
#[local] Instance strict_pandas : Pandas := {
  parse_csv := fun _ => inr example_corr;
  hdf_get := fun bytes _ =>
    if String.eqb bytes "hdf" then inr example_corr
    else inl "HDF5ExtError"%string;
  hdf_put := fun old _ _ =>
    match old with
    | None => inr "hdf"%string
    | Some bytes => if String.eqb bytes "hdf" then inr "hdf"%string
                    else inl "HDF5ExtError"%string
    end;
  pearson := fun df => df;
  sort_values_desc := isort_desc
}.

(** A table with two gene columns and a gene list in lower case. *)
Definition two_genes : DataFrame :=
  {| index := ["ACH-000001"]%string;
     columns := ["KRAS"; "TP53"]%string;
     values := [[-1; 0.5]]%float |}.

Definition lower_case_list : string :=
  String "k" (String "r" (String "a" (String "s" (String LF
    (String " " (String "m" (String "y" (String "c" (String CR (String LF
       EmptyString)))))))))).

(** A gene list with white space around a name and with every letter:
    two blanks, [tp53], a blank, a tab, CR LF, then the alphabet in lower
    case. *)
Definition alphabet_lower : string := "abcdefghijklmnopqrstuvwxyz".
Definition alphabet_upper : string := "ABCDEFGHIJKLMNOPQRSTUVWXYZ".

Definition padded_line : string :=
  append "  tp53 " (String "009" (String CR (String LF EmptyString))).

Definition padded_list : string :=
  append padded_line (append alphabet_lower (String LF EmptyString)).

Definition alphabet_genes : DataFrame :=
  {| index := ["ACH-000001"]%string;
     columns := ["TP53"%string; alphabet_upper];
     values := [[0.5; -1]]%float |}.

(** A table and a gene list that name a gene with the feminine ordinal
    indicator U+00AA alone: a lower-case character for Python, with no
    upper-case form. *)
Definition ordinal : string := String "170" EmptyString.

Definition ordinal_genes : DataFrame :=
  {| index := ["ACH-000001"]%string;
     columns := [ordinal; "TP53"%string];
     values := [[-1; 0.5]]%float |}.

Definition ordinal_list : string := String "170" (String LF EmptyString).


(** A working directory with the files [paths], each holding the text
    [lower_case_list], and an empty log. *)
Definition directory (paths : list string) : world :=
  {| files := fun p => if existsb (String.eqb p) paths
                       then Some lower_case_list else None;
     trace := [] |}.

Definition no_files : world := directory [].
Definition csv_only : world := directory [csv_path].
Definition cache_only : world := directory [cache_path].
Definition all_files : world :=
  directory [csv_path; cache_path; prior_path; metab_path].

(* ================================================================= *)
(** ** Readings of the specification to be compared with the code *)

(** The output of the pair filter as the specification words it: exactly
    the pairs of distinct labels whose correlation exceeds one half in
    absolute value, each with that absolute value. *)
Definition pair_filter_as_specified `{Pandas} (corr : DataFrame) : Prop :=
  forall c r v,
    In ((c, r), v) (sort_corrs corr) <->
    c <> r /\
    exists x, corr_at corr c r x /\
              F64.gtb (abs x) F64.half = true /\ v = abs x.

(** The subsetter as the specification words it: what it returns is a
    name of the file and a column of the table. *)
Definition subsetter_as_specified (data : DataFrame) (content : string)
    : Prop :=
  forall g, In g (metab_genes_from data content) ->
            In g (names_in_file content) /\ In g (columns data).

(** The correlation cache as the specification words it: the cell loads
    exactly when the cache file exists and computes exactly when it does
    not. *)
Definition cache_as_specified `{Pandas} (recalc : bool) (data : DataFrame)
    (w : world) : Prop :=
  let done := cell_events (cache_cell recalc data) w in
  (In (EvRead cache_path) done <-> files w cache_path <> None) /\
  (In EvCorr done <-> files w cache_path = None).


(** A correlation matrix with the conditions the specification lists and
    no more: square, symmetric, ones on the diagonal. *)
Record stated_correlation_matrix (df : DataFrame) : Prop := {
  scm_rect : rectangular df;
  scm_square : index df = columns df;
  scm_diag : forall i, i < length (columns df) ->
             (iloc df i i =? F64.one)%float = true;
  scm_sym : forall i j, i < length (columns df) -> j < length (columns df) ->
            same_value (iloc df i j) (iloc df j i)
}.

(** The pair filter as the specification words it: no pair with twice the
    same label, none at or below one half. *)
Definition never_self_or_small `{Pandas} (corr : DataFrame) : Prop :=
  forall c r v, In ((c, r), v) (sort_corrs corr) ->
                c <> r /\ (v <=? F64.half)%float = false.

(** The capital of a letter by its place in the alphabet; any other
    character is its own. On ASCII text [str.upper] is this, character by
    character. *)
Fixpoint capital_in (lower upper : string) (c : ascii) : ascii :=
  match lower, upper with
  | String l lower', String u upper' =>
      if Ascii.eqb c l then u else capital_in lower' upper' c
  | _, _ => c
  end.

Definition capital_of : ascii -> ascii :=
  capital_in alphabet_lower alphabet_upper.

Fixpoint capitals (s : string) : string :=
  match s with
  | EmptyString => EmptyString
  | String c s' => String (capital_of c) (capitals s')
  end.

(** The upper-casing as the specification words it: every retained name is
    the upper-case form of a stripped line and is entirely upper case, and
    a line is retained whenever its upper-case form is a column. *)
Definition uppercases_as_specified (data : DataFrame) (content : string)
    : Prop :=
  (forall g, In g (metab_genes_from data content) ->
     exists line, In line (lines_of content) /\ g = upper (strip line)) /\
  (forall g, In g (metab_genes_from data content) ->
     entirely_upper g = true) /\
  (forall line, In line (lines_of content) ->
     In (upper (strip line)) (columns data) ->
     In (upper (strip line)) (metab_genes_from data content)).


(* ================================================================= *)
(** ** Notions used to describe the rest of the notebook *)

(** [c in s]. *)
Fixpoint occurs (c : ascii) (s : string) : bool :=
  match s with
  | EmptyString => false
  | String c' s' => Ascii.eqb c c' || occurs c s'
  end.

(** [''.join(lines)]. *)
Definition join (lines : list string) : string :=
  fold_right append EmptyString lines.

(** Two genes in perfect opposition. *)
Definition opposed_corr : DataFrame :=
  {| index := ["A"; "B"]%string;
     columns := ["A"; "B"]%string;
     values := [[1; -1]; [-1; 1]]%float |}.

(** The events of a run that meets no failure, in order. *)
Definition schedule (recalc : bool) : list event :=
  [EvRead csv_path]
  ++ (if recalc then [EvCorr; EvWrite cache_path] else [EvRead cache_path])
  ++ [EvRead prior_path; EvRead metab_path; EvCorr].

(** The world in which the cache file holds [bytes]. *)
Definition cached (w : world) (bytes : string) : world :=
  {| files := fun p => if String.eqb p cache_path then Some bytes
                       else files w p;
     trace := trace w |}.

(** The results of a run, from what its reads and its lookups gave. *)
Definition results_of `{Pandas} (data corr : DataFrame)
    (prior_text metab_text : string) (prior_corrs : Series)
    (metab_data : DataFrame) : Results :=
  {| r_data := data; r_corr := corr;
     r_large_corr := large_corr corr; r_sort_corrs := sort_corrs corr;
     r_prior_genes := prior_genes_of (lines_of prior_text);
     r_metab_genes := metab_genes_of data (lines_of metab_text);
     r_prior_corrs := prior_corrs;
     r_metab_data := metab_data; r_metab_corr := pearson metab_data;
     r_mlarge_corr := large_corr (pearson metab_data);
     r_msort_corrs := sort_corrs (pearson metab_data) |}.

(** The directory [all_files] with another text in the CSV file. *)
Definition other_csv : world :=
  {| files := fun p => if String.eqb p csv_path then Some "other"%string
                       else files all_files p;
     trace := [] |}.

(** A gene list in upper case: [KRAS], [MYC], one per line. *)
Definition upper_case_list : string :=
  String "K" (String "R" (String "A" (String "S" (String LF
    (String "M" (String "Y" (String "C" (String LF EmptyString)))))))).




(* ================================================================= *)
(** ** Facts about binary64 comparisons *)

Module F64Facts.

Import F64.
Local Open Scope float_scope.

(** *** The specification level *)

Lemma SFcompare_refl (a : spec_float) :
  a <> S754_nan -> SFcompare a a = Some Eq.
Proof.
  destruct a as [s|s| |s m e]; simpl; intros H; try congruence.
  - now destruct s.
  - destruct s; rewrite Z.compare_refl;
      change (Pos.compare_cont Eq m m) with (Pos.compare m m);
      now rewrite Pos.compare_refl.
Qed.

Lemma SFcompare_antisym (a b : spec_float) :
  SFcompare b a = option_map CompOpp (SFcompare a b).
Proof.
  destruct a as [sa|sa| |sa ma ea], b as [sb|sb| |sb mb eb]; simpl;
    try reflexivity;
    try (destruct sa; reflexivity);
    try (destruct sb; reflexivity);
    try (destruct sa, sb; reflexivity).
  f_equal.
  change (Pos.compare_cont Eq mb ma) with (Pos.compare mb ma).
  change (Pos.compare_cont Eq ma mb) with (Pos.compare ma mb).
  rewrite (Z.compare_antisym ea eb), (Pos.compare_antisym ma mb).
  destruct sa, sb; simpl; try reflexivity;
    destruct (ea ?= eb)%Z; simpl; try reflexivity;
    destruct (ma ?= mb)%positive; reflexivity.
Qed.

Lemma SFltb_SFleb_false (a b : spec_float) :
  SFltb a b = true -> SFleb b a = false.
Proof.
  unfold SFltb, SFleb. rewrite (SFcompare_antisym a b).
  destruct (SFcompare a b) as [[]|]; simpl; congruence.
Qed.

Lemma SFleb_total (a b : spec_float) :
  a <> S754_nan -> b <> S754_nan -> SFleb a b = true \/ SFleb b a = true.
Proof.
  intros Ha Hb. unfold SFleb. rewrite (SFcompare_antisym a b).
  destruct (SFcompare a b) as [[]|] eqn:E; simpl; auto.
  exfalso.
  destruct a as [sa|sa| |sa ma ea], b as [sb|sb| |sb mb eb];
    simpl in E; congruence.
Qed.

Lemma SFleb_trans (a b c : spec_float) :
  SFleb a b = true -> SFleb b c = true -> SFleb a c = true.
Proof.
  unfold SFleb.
  destruct a as [sa|sa| |sa ma ea], b as [sb|sb| |sb mb eb],
           c as [sc|sc| |sc mc ec]; simpl;
    try discriminate; try reflexivity;
    try (destruct sa; simpl; try discriminate; try reflexivity);
    try (destruct sb; simpl; try discriminate; try reflexivity);
    try (destruct sc; simpl; try discriminate; try reflexivity);
    intros H1 H2; cmp_cases.
Qed.

(** Float equality is identity away from the two zeros. *)
Lemma SFeqb_eq (a b : spec_float) :
  SFeqb a b = true -> (forall s, a <> S754_zero s) -> a = b.
Proof.
  unfold SFeqb.
  destruct a as [sa|sa| |sa ma ea], b as [sb|sb| |sb mb eb]; simpl;
    intros H Hz; try discriminate H;
    try (exfalso; now apply (Hz sa));
    try (destruct sa, sb; simpl in H; try discriminate H; reflexivity);
    try (destruct sa; discriminate H);
    try (destruct sb; discriminate H).
  destruct sa, sb; try discriminate H; cmp_cases; subst; reflexivity.
Qed.

(** *** Primitive floats *)

Lemma not_nan_spec (x : float) : not_nan x <-> Prim2SF x <> S754_nan.
Proof.
  unfold not_nan, is_nan. rewrite eqb_spec. unfold SFeqb. split.
  - intros H E. rewrite E in H. discriminate H.
  - intros H. now rewrite (SFcompare_refl _ H).
Qed.

Lemma ltb_leb_false (x y : float) : (x <? y) = true -> (y <=? x) = false.
Proof. rewrite ltb_spec, leb_spec. apply SFltb_SFleb_false. Qed.

Lemma leb_total (x y : float) :
  not_nan x -> not_nan y -> (x <=? y) = true \/ (y <=? x) = true.
Proof.
  rewrite !not_nan_spec, !leb_spec. apply SFleb_total.
Qed.

Lemma leb_trans (x y z : float) :
  (x <=? y) = true -> (y <=? z) = true -> (x <=? z) = true.
Proof. rewrite !leb_spec. apply SFleb_trans. Qed.

Lemma ltb_not_nan_r (x y : float) : (x <? y) = true -> not_nan y.
Proof.
  rewrite ltb_spec, not_nan_spec. intros H E. rewrite E in H.
  unfold SFltb in H. now destruct (Prim2SF x).
Qed.

(** Above one half in absolute value, [==] is identity. *)
Lemma eqb_eq_large (x y : float) :
  (x =? y) = true -> gtb (abs x) half = true -> x = y.
Proof.
  unfold gtb. rewrite eqb_spec, ltb_spec, abs_spec. intros He Hl.
  apply Prim2SF_inj. apply SFeqb_eq; [exact He|].
  intros s Hz. rewrite Hz in Hl. vm_compute in Hl. discriminate Hl.
Qed.

End F64Facts.

(* ================================================================= *)
(** ** Facts about the table operations *)

Lemma in_combine_seq {A : Type} (l : list A) (s i : nat) (x : A) :
  In (i, x) (combine (seq s (length l)) l) <->
  s <= i /\ nth_error l (i - s) = Some x.
Proof.
  revert s; induction l as [|a l IH]; intros s; simpl.
  - split; [tauto|]. intros [_ H]. now destruct (i - s).
  - rewrite IH. split.
    + intros [E | [Hle Hn]].
      * inversion E; subst. split; [lia|]. now rewrite Nat.sub_diag.
      * split; [lia|]. replace (i - s) with (S (i - S s)) by lia. exact Hn.
    + intros [Hle Hn]. destruct (i - s) as [|k] eqn:E.
      * left. inversion Hn; subst. f_equal. lia.
      * right. split; [lia|]. replace (i - S s) with k by lia. exact Hn.
Qed.

Lemma in_enumerate {A : Type} (l : list A) (i : nat) (x : A) :
  In (i, x) (enumerate l) <-> nth_error l i = Some x.
Proof.
  unfold enumerate. rewrite in_combine_seq, Nat.sub_0_r.
  split; [tauto | intros H; split; [lia | exact H]].
Qed.

Lemma in_unstack (df : DataFrame) (c r : label) (x : float) :
  In ((c, r), x) (unstack df) <->
  exists i j, nth_error (columns df) j = Some c /\
              nth_error (index df) i = Some r /\ x = iloc df i j.
Proof.
  unfold unstack. rewrite in_flat_map. split.
  - intros [[j c'] [Hc Hin]]. apply in_map_iff in Hin.
    destruct Hin as [[i r'] [E Hr]]. simpl in E. inversion E; subst.
    exists i, j. rewrite <- !in_enumerate. auto.
  - intros (i & j & Hc & Hr & ->). exists (j, c). split.
    + now apply in_enumerate.
    + apply in_map_iff. exists (i, r). split; [reflexivity|].
      now apply in_enumerate.
Qed.

Lemma filter_filter {A : Type} (p q : A -> bool) (l : list A) :
  filter p (filter q l) = filter (fun x => q x && p x) l.
Proof.
  induction l as [|a l IH]; simpl; [reflexivity|].
  destruct (q a); simpl; [destruct (p a)|]; now rewrite IH.
Qed.

Lemma large_corr_filter (corr : DataFrame) :
  large_corr corr = filter (fun e => keeps (snd e)) (unstack corr).
Proof. unfold large_corr, mask. apply filter_filter. Qed.

Lemma in_large_corr (corr : DataFrame) (k : label * label) (x : float) :
  In (k, x) (large_corr corr) <->
  In (k, x) (unstack corr) /\ keeps x = true.
Proof. rewrite large_corr_filter. apply filter_In. Qed.

Lemma in_series_abs (s : Series) (k : label * label) (v : float) :
  In (k, v) (series_abs s) <-> exists x, In (k, x) s /\ v = abs x.
Proof.
  unfold series_abs. rewrite in_map_iff. split.
  - intros [[k' x] [E H]]. simpl in E. inversion E; subst. now exists x.
  - intros [x [H ->]]. now exists (k, x).
Qed.

Lemma keeps_spec (x : float) :
  keeps x = true <->
  F64.neb x F64.one = true /\ F64.gtb (abs x) F64.half = true.
Proof. unfold keeps. apply andb_true_iff. Qed.

Lemma series_abs_large_nan_free (corr : DataFrame) :
  nan_free (series_abs (large_corr corr)).
Proof.
  apply Forall_forall. intros [k v] H. apply in_series_abs in H.
  destruct H as [x [H ->]]. apply in_large_corr in H.
  destruct H as [_ H]. apply keeps_spec in H. simpl.
  apply (F64Facts.ltb_not_nan_r F64.half). apply H.
Qed.

(* ================================================================= *)
(** ** Facts about sorted series *)

Lemma desc_trans (a b c : entry) : desc a b -> desc b c -> desc a c.
Proof.
  unfold desc, F64.geb. intros H1 H2. exact (F64Facts.leb_trans _ _ _ H2 H1).
Qed.

Lemma insert_desc_perm (e : entry) (s : Series) :
  Permutation (insert_desc e s) (e :: s).
Proof.
  induction s as [|h t IH]; simpl; [reflexivity|].
  destruct (F64.geb (snd e) (snd h)); [reflexivity|].
  rewrite IH. apply perm_swap.
Qed.

Lemma isort_desc_perm (s : Series) : Permutation (isort_desc s) s.
Proof.
  induction s as [|e s IH]; simpl; [reflexivity|].
  rewrite insert_desc_perm. now constructor.
Qed.

Lemma insert_desc_sorted (e : entry) (s : Series) :
  F64.not_nan (snd e) -> nan_free s ->
  StronglySorted desc s -> StronglySorted desc (insert_desc e s).
Proof.
  intros He Hs Hsorted. induction Hsorted as [|h t Ht IH Hh]; simpl.
  - repeat constructor.
  - inversion Hs as [|? ? Hnh Hnt]; subst.
    destruct (F64.geb (snd e) (snd h)) eqn:E.
    + constructor; [now constructor|]. constructor; [exact E|].
      eapply Forall_impl; [|exact Hh]. intros c Hc.
      now apply desc_trans with h.
    + constructor; [now apply IH|].
      apply Forall_forall. intros c Hc.
      apply (Permutation_in _ (insert_desc_perm e t)) in Hc.
      destruct Hc as [<- | Hc].
      * unfold F64.geb in E.
        destruct (F64Facts.leb_total (snd h) (snd e) Hnh He) as [H | H];
          [congruence | exact H].
      * rewrite Forall_forall in Hh. now apply Hh.
Qed.

Lemma isort_desc_sorted (s : Series) :
  nan_free s -> StronglySorted desc (isort_desc s).
Proof.
  induction 1 as [|e s He Hs IH]; simpl; [constructor|].
  apply insert_desc_sorted; auto.
  apply Forall_forall. intros c Hc.
  apply (Permutation_in _ (isort_desc_perm s)) in Hc.
  rewrite Forall_forall in Hs. now apply Hs.
Qed.

Lemma isort_desc_sorts : sorts_descending isort_desc.
Proof. split; [apply isort_desc_perm | apply isort_desc_sorted]. Qed.

(** In a descending series a strictly larger value comes first. *)
Lemma sorted_desc_before (s : Series) (a b : entry) :
  StronglySorted desc s -> In a s -> In b s ->
  F64.not_nan (snd a) ->
  F64.geb (snd b) (snd a) = false ->
  exists s1 s2 s3, s = s1 ++ a :: s2 ++ b :: s3.
Proof.
  intros Hs Ha Hb Hn Hlt. induction Hs as [|h t Ht IH Hh].
  - contradiction.
  - rewrite Forall_forall in Hh. destruct Ha as [-> | Ha].
    + destruct Hb as [<- | Hb].
      * exfalso. unfold F64.geb in Hlt.
        destruct (F64Facts.leb_total _ _ Hn Hn); congruence.
      * apply in_split in Hb. destruct Hb as (s2 & s3 & ->).
        now exists [], s2, s3.
    + destruct Hb as [-> | Hb].
      * exfalso. specialize (Hh _ Ha). unfold desc in Hh. congruence.
      * destruct (IH Ha Hb) as (s1 & s2 & s3 & ->).
        now exists (h :: s1), s2, s3.
Qed.

(* ================================================================= *)
(** ** The pair filter *)

Section PairFilter.

Context `{Pandas}.
Hypothesis sort_ok : sorts_descending sort_values_desc.

Lemma in_sort_corrs (corr : DataFrame) (k : label * label) (v : float) :
  In (k, v) (sort_corrs corr) <->
  exists x, In (k, x) (unstack corr) /\ keeps x = true /\ v = abs x.
Proof.
  unfold sort_corrs. split.
  - intros Hin. apply (Permutation_in _ (sort_perm sort_ok _)) in Hin.
    apply in_series_abs in Hin. destruct Hin as [x [Hin ->]].
    apply in_large_corr in Hin. exists x. tauto.
  - intros (x & Hin & Hk & ->).
    apply (Permutation_in _ (Permutation_sym (sort_perm sort_ok _))).
    apply in_series_abs. exists x. split; [|reflexivity].
    apply in_large_corr. tauto.
Qed.

Lemma sort_corrs_sorted (corr : DataFrame) :
  StronglySorted desc (sort_corrs corr).
Proof. apply (sort_sorted sort_ok), series_abs_large_nan_free. Qed.

End PairFilter.

Lemma corr_at_positions (corr : DataFrame) (c r : label) (x : float) :
  corr_at corr c r x <->
  exists i j, nth_error (columns corr) j = Some c /\
              nth_error (index corr) i = Some r /\ x = iloc corr i j.
Proof. apply in_unstack. Qed.

Lemma diagonal_value (corr : DataFrame) (c : label) (x : float) :
  correlation_matrix corr -> corr_at corr c c x ->
  (x =? F64.one)%float = true.
Proof.
  intros Hcm Hx. apply corr_at_positions in Hx.
  destruct Hx as (i & j & Hc & Hr & ->).
  rewrite (cm_square Hcm) in Hr.
  assert (Hj : j < length (columns corr)).
  { apply nth_error_Some. congruence. }
  assert (i = j).
  { symmetry. apply (proj1 (NoDup_nth_error _) (cm_labels Hcm)); congruence. }
  subst i. now apply (cm_diag Hcm).
Qed.

Lemma mirrored_value (corr : DataFrame) (c r : label) (x : float) :
  correlation_matrix corr -> corr_at corr c r x ->
  exists y, corr_at corr r c y /\ same_value x y.
Proof.
  intros Hcm Hx. apply corr_at_positions in Hx.
  destruct Hx as (i & j & Hc & Hr & ->).
  exists (iloc corr j i). split.
  - apply corr_at_positions. exists j, i.
    rewrite (cm_square Hcm) in *. auto.
  - rewrite (cm_square Hcm) in Hr.
    apply (cm_sym Hcm); apply nth_error_Some; congruence.
Qed.

Lemma keeps_same_value (x y : float) :
  keeps x = true -> same_value x y -> x = y.
Proof.
  intros Hk [E | E]; [exact E|].
  apply keeps_spec in Hk. now apply F64Facts.eqb_eq_large.
Qed.

Lemma keeps_not_one (x : float) :
  keeps x = true -> (x =? F64.one)%float = true -> False.
Proof.
  intros Hk E. apply keeps_spec in Hk. destruct Hk as [Hk _].
  unfold F64.neb in Hk. rewrite E in Hk. discriminate Hk.
Qed.

Lemma keeps_above_half (x : float) :
  keeps x = true -> (abs x <=? F64.half)%float = false.
Proof.
  intros Hk. apply keeps_spec in Hk. destruct Hk as [_ Hk].
  now apply F64Facts.ltb_leb_false.
Qed.

Lemma twin_corr_is_correlation_matrix : correlation_matrix twin_corr.
Proof.
  split.
  - split; [reflexivity | repeat constructor].
  - reflexivity.
  - repeat constructor; simpl; intuition discriminate.
  - intros i Hi. simpl in Hi.
    destruct i as [|[|i]]; [reflexivity | reflexivity | lia].
  - intros i j Hi Hj. simpl in Hi, Hj. left.
    destruct i as [|[|i]], j as [|[|j]]; try lia; reflexivity.
Qed.

Lemma example_corr_is_correlation_matrix : correlation_matrix example_corr.
Proof.
  split.
  - split; [reflexivity | repeat constructor].
  - reflexivity.
  - repeat constructor; simpl; intuition discriminate.
  - intros i Hi. simpl in Hi.
    destruct i as [|[|[|i]]]; try reflexivity; lia.
  - intros i j Hi Hj. simpl in Hi, Hj. left.
    destruct i as [|[|[|i]]], j as [|[|[|j]]]; try lia; reflexivity.
Qed.

(** C2, as amended. On a correlation matrix whose labels are unique
    (square, symmetric, diagonal 1.0, no label on two genes) the pair
    filter returns no pair with identical labels and no pair whose
    absolute correlation is at most 0.5; this holds of the sorted output
    and of [large_corr] before it. *)
Theorem pair_filter_never_self_or_small `{Pandas} (corr : DataFrame) :
  sorts_descending sort_values_desc ->
  correlation_matrix corr ->
  (forall c r v, In ((c, r), v) (sort_corrs corr) ->
     c <> r /\ (v <=? F64.half)%float = false) /\
  (forall c r x, In ((c, r), x) (large_corr corr) ->
     c <> r /\ (abs x <=? F64.half)%float = false).
Proof.
  intros Hsort Hcm.
  assert (Hlarge : forall c r x, In ((c, r), x) (unstack corr) ->
            keeps x = true -> c <> r /\ (abs x <=? F64.half)%float = false).
  { intros c r x Hin Hk. split; [|now apply keeps_above_half].
    intros ->. apply (keeps_not_one x Hk).
    now apply (diagonal_value corr r). }
  split.
  - intros c r v Hin. apply (in_sort_corrs Hsort) in Hin.
    destruct Hin as (x & Hin & Hk & ->). now apply Hlarge.
  - intros c r x Hin. apply in_large_corr in Hin. now apply Hlarge.
Qed.

Lemma pair_filter_never_self_or_small_witness :
  (forall c r v, In ((c, r), v) (@sort_corrs toy_pandas example_corr) ->
     c <> r /\ (v <=? F64.half)%float = false) /\
  (forall c r x, In ((c, r), x) (large_corr example_corr) ->
     c <> r /\ (abs x <=? F64.half)%float = false).
Proof.
  apply (@pair_filter_never_self_or_small toy_pandas example_corr).
  - exact isort_desc_sorts.
  - exact example_corr_is_correlation_matrix.
Defined.

Lemma example_large_abs :
  series_abs (large_corr example_corr) =
  [ (("A", "B")%string, snd entry_AB);
    (("B", "A")%string, snd entry_AB);
    (("B", "C")%string, snd entry_BC);
    (("C", "B")%string, snd entry_BC) ].
Proof. vm_compute. reflexivity. Qed.

(** C3. For the 3x3 matrix over A, B, C with A-B = 0.6, A-C = 0.2 and
    B-C = -0.7, whatever algorithm sorts, the filtered list holds
    (B,C,0.7) and (A,B,0.6) with the former first, no pair of A with C in
    either orientation, and no pair with identical labels. *)
Theorem example_pair_list `{Pandas} :
  sorts_descending sort_values_desc ->
  (exists s1 s2 s3,
     sort_corrs example_corr =
     s1 ++ entry_BC :: s2 ++ entry_AB :: s3) /\
  (forall v, ~ In (("A", "C")%string, v) (sort_corrs example_corr) /\
             ~ In (("C", "A")%string, v) (sort_corrs example_corr)) /\
  (forall l v, ~ In ((l, l), v) (sort_corrs example_corr)).
Proof.
  intros Hsort.
  assert (Hperm := sort_perm Hsort (series_abs (large_corr example_corr))).
  assert (Hsorted := sort_corrs_sorted Hsort example_corr).
  fold (sort_corrs example_corr) in Hperm.
  rewrite example_large_abs in Hperm.
  assert (Hin : forall e, In e (sort_corrs example_corr) <->
            In e [ (("A", "B")%string, snd entry_AB);
                   (("B", "A")%string, snd entry_AB);
                   (("B", "C")%string, snd entry_BC);
                   (("C", "B")%string, snd entry_BC) ]).
  { intros e. split; apply Permutation_in;
      [exact Hperm | exact (Permutation_sym Hperm)]. }
  split; [|split].
  - apply sorted_desc_before.
    + exact Hsorted.
    + apply Hin. simpl. auto.
    + apply Hin. simpl. auto.
    + reflexivity.
    + reflexivity.
  - intros v. split; intros Hv; apply Hin in Hv; simpl in Hv;
      intuition discriminate.
  - intros l v Hv. apply Hin in Hv. simpl in Hv.
    repeat (destruct Hv as [Hv | Hv];
            [inversion Hv; subst; discriminate|]).
    exact Hv.
Qed.

Lemma example_pair_list_witness :
  (exists s1 s2 s3,
     @sort_corrs toy_pandas example_corr =
     s1 ++ entry_BC :: s2 ++ entry_AB :: s3) /\
  (forall v, ~ In (("A", "C")%string, v) (@sort_corrs toy_pandas example_corr) /\
             ~ In (("C", "A")%string, v) (@sort_corrs toy_pandas example_corr)) /\
  (forall l v, ~ In ((l, l), v) (@sort_corrs toy_pandas example_corr)).
Proof.
  apply (@example_pair_list toy_pandas). exact isort_desc_sorts.
Defined.

Lemma homonym_corr_is_stated_correlation_matrix :
  stated_correlation_matrix homonym_corr.
Proof.
  split.
  - split; [reflexivity | repeat constructor].
  - reflexivity.
  - intros i Hi. simpl in Hi.
    destruct i as [|[|i]]; [reflexivity | reflexivity | lia].
  - intros i j Hi Hj. simpl in Hi, Hj. left.
    destruct i as [|[|i]], j as [|[|j]]; try lia; reflexivity.
Qed.

(** C2 as the specification words it fails when one label names two
    genes: the table is square and symmetric with ones on the diagonal,
    and the pair of the two genes is returned under twice that label. *)
Lemma never_self_or_small_fails :
  stated_correlation_matrix homonym_corr /\
  In (("A", "A")%string, abs (iloc homonym_corr 0 1))
     (@sort_corrs toy_pandas homonym_corr) /\
  ~ @never_self_or_small toy_pandas homonym_corr.
Proof.
  assert (Hin : In (("A", "A")%string, abs (iloc homonym_corr 0 1))
                   (@sort_corrs toy_pandas homonym_corr))
    by (vm_compute; auto).
  split; [exact homonym_corr_is_stated_correlation_matrix|].
  split; [exact Hin|].
  intros Hspec. destruct (Hspec _ _ _ Hin) as [Hne _]. now apply Hne.
Qed.

(** With the insertion sort the example's output is this list. *)
Lemma example_pair_list_isort :
  @sort_corrs toy_pandas example_corr =
  [ (("B", "C")%string, snd entry_BC);
    (("C", "B")%string, snd entry_BC);
    (("A", "B")%string, snd entry_AB);
    (("B", "A")%string, snd entry_AB) ].
Proof. vm_compute. reflexivity. Qed.

(** C1, as amended. On a correlation matrix the output of the pair filter
    holds exactly the pairs of distinct labels whose correlation differs
    from 1.0 and exceeds 0.5 in absolute value, each with that absolute
    value; it is a rearrangement of the kept cells with nothing merged, a
    pair is present together with its mirror image, and the values
    descend. *)
Theorem pair_filter_exact `{Pandas} (corr : DataFrame) :
  sorts_descending sort_values_desc ->
  correlation_matrix corr ->
  (forall c r v,
     In ((c, r), v) (sort_corrs corr) <->
     c <> r /\
     exists x, corr_at corr c r x /\ F64.neb x F64.one = true /\
               F64.gtb (abs x) F64.half = true /\ v = abs x) /\
  Permutation (sort_corrs corr)
    (series_abs (filter (fun e => keeps (snd e)) (unstack corr))) /\
  (forall c r v, In ((c, r), v) (sort_corrs corr) ->
                 In ((r, c), v) (sort_corrs corr)) /\
  StronglySorted desc (sort_corrs corr).
Proof.
  intros Hsort Hcm. split; [|split; [|split]].
  - intros c r v. rewrite (in_sort_corrs Hsort). split.
    + intros (x & Hin & Hk & ->). split.
      * intros ->. apply (keeps_not_one x Hk).
        now apply (diagonal_value corr r).
      * exists x. apply keeps_spec in Hk. unfold corr_at. tauto.
    + intros (_ & x & Hin & Hne & Hgt & ->). exists x.
      rewrite keeps_spec. unfold corr_at in Hin. tauto.
  - unfold sort_corrs. rewrite large_corr_filter. apply (sort_perm Hsort).
  - intros c r v Hin. apply (in_sort_corrs Hsort) in Hin.
    destruct Hin as (x & Hin & Hk & ->).
    destruct (mirrored_value corr c r x Hcm Hin) as (y & Hy & Hxy).
    apply (keeps_same_value x y Hk) in Hxy. subst y.
    apply (in_sort_corrs Hsort). now exists x.
  - apply (sort_corrs_sorted Hsort).
Qed.

Lemma pair_filter_exact_witness :
  (forall c r v,
     In ((c, r), v) (@sort_corrs toy_pandas example_corr) <->
     c <> r /\
     exists x, corr_at example_corr c r x /\ F64.neb x F64.one = true /\
               F64.gtb (abs x) F64.half = true /\ v = abs x) /\
  Permutation (@sort_corrs toy_pandas example_corr)
    (series_abs (filter (fun e => keeps (snd e)) (unstack example_corr))) /\
  (forall c r v, In ((c, r), v) (@sort_corrs toy_pandas example_corr) ->
                 In ((r, c), v) (@sort_corrs toy_pandas example_corr)) /\
  StronglySorted desc (@sort_corrs toy_pandas example_corr).
Proof.
  apply (@pair_filter_exact toy_pandas example_corr).
  - exact isort_desc_sorts.
  - exact example_corr_is_correlation_matrix.
Defined.

(** C1 as the specification words it fails on two genes with the same
    profile: A and B are distinct and correlate with 1.0 > 0.5, yet the
    filter returns nothing. *)
Lemma pair_filter_as_specified_fails :
  correlation_matrix twin_corr /\
  @sort_corrs toy_pandas twin_corr = [] /\
  ~ @pair_filter_as_specified toy_pandas twin_corr.
Proof.
  split; [exact twin_corr_is_correlation_matrix|].
  split; [vm_compute; reflexivity|].
  intros Hspec.
  assert (Hin : In (("A", "B")%string, abs F64.one)
                   (@sort_corrs toy_pandas twin_corr)).
  { apply Hspec. split; [discriminate|]. exists F64.one.
    split; [|split; reflexivity].
    unfold corr_at. vm_compute. auto. }
  vm_compute in Hin. exact Hin.
Qed.

(* ================================================================= *)
(** ** Lines and names of a gene-list file *)

Lemma join_cons (l : string) (ls : list string) :
  join (l :: ls) = append l (join ls).
Proof. reflexivity. Qed.

Lemma split_lines_join (s : string) : join (split_lines s) = s.
Proof.
  induction s as [|c s IH]; simpl; [reflexivity|].
  destruct (Ascii.eqb c LF).
  - rewrite join_cons, IH. reflexivity.
  - destruct (split_lines s) as [|l ls].
    + simpl in IH. subst s. reflexivity.
    + rewrite join_cons in *. simpl. now rewrite IH.
Qed.

Lemma occurs_append (c : ascii) (s t : string) :
  occurs c (append s t) = occurs c s || occurs c t.
Proof.
  induction s as [|a s IH]; simpl; [reflexivity|].
  now rewrite IH, orb_assoc.
Qed.

Lemma occurs_split_lines (c : ascii) (s line : string) :
  In line (split_lines s) -> occurs c line = true -> occurs c s = true.
Proof.
  intros Hin Hc. rewrite <- (split_lines_join s).
  induction (split_lines s) as [|l ls IH]; [contradiction|].
  rewrite join_cons, occurs_append. destruct Hin as [-> | Hin].
  - now rewrite Hc.
  - rewrite (IH Hin). apply orb_true_r.
Qed.

Lemma occurs_cons (c a : ascii) (s : string) :
  occurs c (String a s) = Ascii.eqb c a || occurs c s.
Proof. reflexivity. Qed.

Lemma universal_newlines_cons (c : ascii) (s : string) :
  universal_newlines (String c s) =
  if Ascii.eqb c CR then
    match s with
    | String c' s'' =>
        if Ascii.eqb c' LF then String LF (universal_newlines s'')
        else String LF (universal_newlines s)
    | EmptyString => String LF EmptyString
    end
  else String c (universal_newlines s).
Proof. reflexivity. Qed.

Lemma universal_newlines_no_CR_bounded (n : nat) (s : string) :
  String.length s <= n -> occurs CR (universal_newlines s) = false.
Proof.
  revert s; induction n as [|n IH]; intros s Hn.
  - destruct s; [reflexivity | simpl in Hn; lia].
  - destruct s as [|c s]; [reflexivity|]. simpl in Hn.
    rewrite universal_newlines_cons.
    destruct (Ascii.eqb c CR) eqn:Ec.
    + destruct s as [|c' s]; [reflexivity|]. simpl in Hn.
      destruct (Ascii.eqb c' LF); rewrite occurs_cons;
        (rewrite IH; [reflexivity | simpl; lia]).
    + rewrite occurs_cons, Ascii.eqb_sym, Ec. apply IH. lia.
Qed.

Lemma universal_newlines_no_CR (s : string) :
  occurs CR (universal_newlines s) = false.
Proof. now apply (universal_newlines_no_CR_bounded (String.length s)). Qed.

Lemma split_lines_shape (s : string) :
  Forall (fun line =>
            exists body, occurs LF body = false /\
              (line = append body (String LF EmptyString) \/
               (line = body /\ body <> EmptyString)))
         (split_lines s).
Proof.
  induction s as [|c s IH]; simpl; [constructor|].
  destruct (Ascii.eqb c LF) eqn:Ec.
  - apply Ascii.eqb_eq in Ec. subst c. constructor; [|exact IH].
    exists EmptyString. split; [reflexivity | left; reflexivity].
  - assert (Hc : forall body, occurs LF body = false ->
                   occurs LF (String c body) = false).
    { intros body Hb. now rewrite occurs_cons, Ascii.eqb_sym, Ec, Hb. }
    destruct (split_lines s) as [|l ls].
    + constructor; [|constructor]. exists (String c EmptyString).
      split; [now apply Hc | right; split; [reflexivity | discriminate]].
    + inversion IH as [|? ? (body & Hb & Hl) Hls]; subst.
      constructor; [|exact Hls]. exists (String c body).
      split; [now apply Hc|].
      destruct Hl as [-> | [-> _]];
        [left; reflexivity | right; split; [reflexivity | discriminate]].
Qed.

Lemma last_char_cons (c : ascii) (s : string) :
  s <> EmptyString -> last_char (String c s) = last_char s.
Proof. destruct s; [congruence | reflexivity]. Qed.

Lemma last_char_LF_nonempty (s : string) :
  last_char s = Some LF -> s <> EmptyString.
Proof. now destruct s. Qed.

Lemma split_lines_terminated (s : string) :
  Forall (fun line => last_char line = Some LF) (removelast (split_lines s)).
Proof.
  induction s as [|c s IH]; simpl; [constructor|].
  destruct (Ascii.eqb c LF) eqn:Ec.
  - apply Ascii.eqb_eq in Ec. subst c.
    destruct (split_lines s) as [|l ls]; [constructor|].
    constructor; [reflexivity | exact IH].
  - destruct (split_lines s) as [|l ls]; [constructor|].
    destruct ls as [|l' ls]; [constructor|].
    simpl in IH. inversion IH as [|? ? Hl Hls]; subst.
    simpl. constructor; [|exact Hls].
    rewrite last_char_cons; [exact Hl | now apply last_char_LF_nonempty].
Qed.

Lemma lines_of_shape (content : string) :
  Forall (fun line =>
            line <> EmptyString /\ occurs CR line = false /\
            exists body, occurs LF body = false /\
              (line = append body (String LF EmptyString) \/ line = body))
         (lines_of content).
Proof.
  unfold lines_of.
  assert (Hshape := split_lines_shape (universal_newlines content)).
  rewrite Forall_forall in *. intros line Hin.
  destruct (Hshape line Hin) as (body & Hb & Hl). split; [|split].
  - destruct Hl as [-> | [-> Hne]]; [now destruct body | exact Hne].
  - destruct (occurs CR line) eqn:E; [|reflexivity].
    rewrite <- (universal_newlines_no_CR content).
    symmetry. now apply (occurs_split_lines CR _ line).
  - exists body. split; [exact Hb|]. tauto.
Qed.

(** X6. [f.readlines()] loses nothing and cuts at line feeds only:
    joined, the lines are the text with CR LF and CR read as LF; every
    line but the last ends with a line feed; a line is never empty, holds
    no carriage return, and holds no line feed before its end. *)
Theorem readlines_lines (content : string) :
  join (lines_of content) = universal_newlines content /\
  Forall (fun line => last_char line = Some LF)
         (removelast (lines_of content)) /\
  Forall (fun line =>
            line <> EmptyString /\ occurs CR line = false /\
            exists body, occurs LF body = false /\
              (line = append body (String LF EmptyString) \/ line = body))
         (lines_of content).
Proof.
  split; [|split].
  - unfold lines_of. apply split_lines_join.
  - unfold lines_of. apply split_lines_terminated.
  - apply lines_of_shape.
Qed.

Lemma lstrip_spec (s : string) :
  exists pre, s = append pre (lstrip s) /\ all_space pre = true /\
              forall c, first_char (lstrip s) = Some c -> isspace c = false.
Proof.
  induction s as [|a s (pre & Hs & Hpre & Hfirst)]; simpl.
  - exists EmptyString. repeat split. discriminate.
  - destruct (isspace a) eqn:Ea.
    + exists (String a pre). simpl. rewrite Ea, Hpre.
      repeat split; [now f_equal | exact Hfirst].
    + exists EmptyString. repeat split. simpl. now intros c [= <-].
Qed.

Lemma rstrip_spec (s : string) :
  exists post, s = append (rstrip s) post /\ all_space post = true /\
               forall c, last_char (rstrip s) = Some c -> isspace c = false.
Proof.
  induction s as [|a s (post & Hs & Hpost & Hlast)]; simpl.
  - exists EmptyString. repeat split. discriminate.
  - destruct (rstrip s) as [|b t] eqn:Er.
    + simpl in Hs. subst post. destruct (isspace a) eqn:Ea.
      * exists (String a s). simpl. rewrite Ea, Hpost.
        repeat split. discriminate.
      * exists s. repeat split; [exact Hpost|]. simpl. now intros c [= <-].
    + exists post. split; [simpl; now f_equal|]. split; [exact Hpost|].
      intros c Hc. apply Hlast.
      rewrite last_char_cons in Hc; [exact Hc | discriminate].
Qed.

Lemma first_char_rstrip (s : string) (c : ascii) :
  first_char (rstrip s) = Some c -> first_char s = Some c.
Proof.
  destruct s as [|a s]; simpl; [discriminate|].
  destruct (rstrip s); [destruct (isspace a)|]; simpl; congruence.
Qed.

Lemma all_space_append (s t : string) :
  all_space (append s t) = all_space s && all_space t.
Proof.
  induction s as [|a s IH]; simpl; [reflexivity|].
  now rewrite IH, andb_assoc.
Qed.

Lemma strip_decompose (s : string) :
  exists pre post, s = append pre (append (strip s) post).
Proof.
  destruct (lstrip_spec s) as (pre & Hs & _).
  destruct (rstrip_spec (lstrip s)) as (post & Ht & _).
  exists pre, post. unfold strip. now rewrite <- Ht.
Qed.

Lemma strip_ends (s : string) :
  (forall c, first_char (strip s) = Some c -> isspace c = false) /\
  (forall c, last_char (strip s) = Some c -> isspace c = false).
Proof.
  destruct (lstrip_spec s) as (_ & _ & _ & Hfirst).
  destruct (rstrip_spec (lstrip s)) as (_ & _ & _ & Hlast).
  split; [|exact Hlast].
  intros c Hc. now apply Hfirst, first_char_rstrip.
Qed.

(** X7. [line.strip()] removes white space at both ends and nothing
    else: the line is the result between two runs of white space, and the
    result neither starts nor ends with white space. *)
Theorem strip_spec (s : string) :
  exists pre post,
    s = append pre (append (strip s) post) /\
    all_space pre = true /\ all_space post = true /\
    (forall c, first_char (strip s) = Some c -> isspace c = false) /\
    (forall c, last_char (strip s) = Some c -> isspace c = false).
Proof.
  destruct (lstrip_spec s) as (pre & Hs & Hpre & Hfirst).
  destruct (rstrip_spec (lstrip s)) as (post & Ht & Hpost & Hlast).
  exists pre, post. unfold strip. split; [now rewrite <- Ht|].
  split; [exact Hpre|]. split; [exact Hpost|]. split; [|exact Hlast].
  intros c Hc. now apply Hfirst, first_char_rstrip.
Qed.

Lemma lstrip_all_space (s : string) :
  all_space s = true -> lstrip s = EmptyString.
Proof.
  induction s as [|a s IH]; simpl; [reflexivity|].
  intros H. apply andb_true_iff in H. destruct H as [Ha Hs].
  rewrite Ha. now apply IH.
Qed.

Lemma rstrip_all_space (s : string) :
  all_space s = true -> rstrip s = EmptyString.
Proof.
  induction s as [|a s IH]; simpl; [reflexivity|].
  intros H. apply andb_true_iff in H. destruct H as [Ha Hs].
  now rewrite (IH Hs), Ha.
Qed.

Lemma rstrip_append_space (s t : string) :
  all_space t = true -> rstrip (append s t) = rstrip s.
Proof.
  intros Ht. induction s as [|a s IH]; simpl.
  - now apply rstrip_all_space.
  - now rewrite IH.
Qed.

Lemma lstrip_append_space (s t : string) :
  all_space t = true ->
  lstrip (append s t)
  = if all_space s then EmptyString else append (lstrip s) t.
Proof.
  intros Ht. induction s as [|a s IH]; simpl.
  - now apply lstrip_all_space.
  - destruct (isspace a); simpl; [exact IH | reflexivity].
Qed.

(** White space after the text, such as the line terminator, does not
    change what [strip] returns. *)
Lemma strip_append_space (s t : string) :
  all_space t = true -> strip (append s t) = strip s.
Proof.
  intros Ht. unfold strip. rewrite (lstrip_append_space s t Ht).
  destruct (all_space s) eqn:Es.
  - now rewrite (lstrip_all_space s Es).
  - now apply rstrip_append_space.
Qed.

Lemma lstrip_prefix_space (pre s : string) :
  all_space pre = true -> lstrip (append pre s) = lstrip s.
Proof.
  induction pre as [|a pre IH]; simpl; [reflexivity|].
  intros H. apply andb_true_iff in H. destruct H as [Ha Hpre].
  rewrite Ha. now apply IH.
Qed.

Lemma lstrip_fixed (s : string) :
  (forall c, first_char s = Some c -> isspace c = false) -> lstrip s = s.
Proof.
  destruct s as [|a s]; simpl; [reflexivity|].
  intros H. now rewrite (H a eq_refl).
Qed.

Lemma rstrip_fixed (s : string) :
  (forall c, last_char s = Some c -> isspace c = false) -> rstrip s = s.
Proof.
  induction s as [|a s IH]; [reflexivity|]. intros H.
  destruct s as [|b s].
  - simpl. now rewrite (H a eq_refl).
  - change (rstrip (String a (String b s)))
      with (match rstrip (String b s) with
            | EmptyString =>
                if isspace a then EmptyString else String a EmptyString
            | t => String a t
            end).
    rewrite IH; [reflexivity|]. intros c Hc. apply H. exact Hc.
Qed.

Lemma isspace_is_white (c : ascii) : isspace c = is_white c.
Proof. destruct c as [[] [] [] [] [] [] [] []]; reflexivity. Qed.

Lemma all_space_all_white (s : string) : all_space s = all_white s.
Proof.
  induction s as [|c s IH]; simpl; [reflexivity|].
  now rewrite isspace_is_white, IH.
Qed.

(** [strip] returns the line without the white space at its ends, and
    nothing else does. *)
Lemma strip_stripped_of (s : string) : stripped_of s (strip s).
Proof.
  destruct (lstrip_spec s) as (pre & Hs & Hpre & Hfirst).
  destruct (rstrip_spec (lstrip s)) as (post & Ht & Hpost & Hlast).
  exists pre, post. unfold strip. split; [now rewrite <- Ht|].
  split; [now rewrite <- all_space_all_white|].
  split; [now rewrite <- all_space_all_white|]. split.
  - intros c Hc. rewrite <- isspace_is_white.
    now apply Hfirst, first_char_rstrip.
  - intros c Hc. rewrite <- isspace_is_white. now apply Hlast.
Qed.

Lemma stripped_of_unique (line body : string) :
  stripped_of line body -> body = strip line.
Proof.
  intros (pre & post & -> & Hpre & Hpost & Hfirst & Hlast).
  rewrite <- all_space_all_white in Hpre, Hpost.
  assert (Hfirst' : forall c, first_char body = Some c -> isspace c = false)
    by (intros c Hc; rewrite isspace_is_white; now apply Hfirst).
  assert (Hlast' : forall c, last_char body = Some c -> isspace c = false)
    by (intros c Hc; rewrite isspace_is_white; now apply Hlast).
  unfold strip. rewrite (lstrip_prefix_space pre _ Hpre).
  destruct body as [|a body].
  - simpl. now rewrite (lstrip_all_space post Hpost).
  - rewrite lstrip_fixed.
    + rewrite (rstrip_append_space _ post Hpost).
      symmetry. now apply rstrip_fixed.
    + simpl. intros c [= <-]. now apply Hfirst'.
Qed.

Lemma stripped_of_iff (line body : string) :
  stripped_of line body <-> body = strip line.
Proof.
  split; [apply stripped_of_unique | intros ->; apply strip_stripped_of].
Qed.

Lemma ascii_text_append (s t : string) :
  ascii_text (append s t) = ascii_text s && ascii_text t.
Proof.
  induction s as [|a s IH]; simpl; [reflexivity|].
  now rewrite IH, andb_assoc.
Qed.

Lemma ascii_text_strip (s : string) :
  ascii_text s = true -> ascii_text (strip s) = true.
Proof.
  intros Hs. destruct (strip_decompose s) as (pre & post & E).
  rewrite E, !ascii_text_append in Hs.
  apply andb_true_iff in Hs. destruct Hs as [_ Hs].
  apply andb_true_iff in Hs. apply Hs.
Qed.

(** On an ASCII character [upper] gives an ASCII character that is not
    lower case. *)
Lemma upper_char_ascii (c : ascii) :
  (nat_of_ascii c <? 128) = true ->
  (nat_of_ascii (upper_char c) <? 128) = true /\
  py_islower (upper_char c) = false.
Proof.
  destruct c as [[] [] [] [] [] [] [] []]; intros H;
    first [discriminate H | split; reflexivity].
Qed.

Lemma upper_ascii_entirely_upper (s : string) :
  ascii_text s = true ->
  ascii_text (upper s) = true /\ entirely_upper (upper s) = true.
Proof.
  induction s as [|c s IH]; simpl; [now split|].
  intros H. apply andb_true_iff in H. destruct H as [Hc Hs].
  destruct (upper_char_ascii c Hc) as [Ha Hl].
  destruct (IH Hs) as [IHa IHu]. now rewrite Ha, Hl, IHa, IHu.
Qed.

(** The lower-case code points below U+0100 are 61: a to z, U+00AA,
    U+00B5, U+00BA, U+00DF to U+00F6 and U+00F8 to U+00FF. *)
Lemma py_islower_code_points :
  filter (fun n => py_islower (ascii_of_nat n)) (seq 0 256)
  = seq 97 26 ++ [170; 181; 186] ++ seq 223 24 ++ seq 248 8.
Proof. vm_compute. reflexivity. Qed.

Lemma upper_char_capital (c : ascii) : upper_char c = capital_of c.
Proof. destruct c as [[] [] [] [] [] [] [] []]; reflexivity. Qed.

Lemma upper_capitals (s : string) : upper s = capitals s.
Proof.
  induction s as [|c s IH]; simpl; [reflexivity|].
  now rewrite upper_char_capital, IH.
Qed.

Lemma islower_char_py_islower (c : ascii) :
  py_islower c = false -> islower_char c = false.
Proof.
  destruct c as [[] [] [] [] [] [] [] []]; intros H;
    first [discriminate H | reflexivity].
Qed.

Lemma entirely_upper_no_lower (s : string) :
  entirely_upper s = true -> no_lower s = true.
Proof.
  induction s as [|c s IH]; simpl; [reflexivity|].
  intros H. apply andb_true_iff in H. destruct H as [Hc Hs].
  apply negb_true_iff in Hc.
  now rewrite (islower_char_py_islower c Hc), (IH Hs).
Qed.

Lemma occurs_strip (c : ascii) (s : string) :
  occurs c (strip s) = true -> occurs c s = true.
Proof.
  intros Hc. destruct (strip_decompose s) as (pre & post & Hs).
  rewrite Hs, !occurs_append, Hc. now rewrite orb_true_r.
Qed.

(** X8. The names of [prior_genes] are clean: one name per line of the
    file, none holding a line feed or a carriage return, none starting or
    ending with white space; a line of white space alone gives the empty
    name, which is kept. *)
Theorem prior_genes_clean (content : string) :
  let prior_genes := prior_genes_of (lines_of content) in
  length prior_genes = length (lines_of content) /\
  Forall (fun name =>
            occurs LF name = false /\ occurs CR name = false /\
            (forall c, first_char name = Some c -> isspace c = false) /\
            (forall c, last_char name = Some c -> isspace c = false))
         prior_genes /\
  (forall line, In line (lines_of content) -> all_space line = true ->
                In EmptyString prior_genes).
Proof.
  cbv zeta. unfold prior_genes_of. split; [apply length_map|]. split.
  - apply Forall_forall. intros name Hname. apply in_map_iff in Hname.
    destruct Hname as (line & <- & Hline).
    assert (Hshape := lines_of_shape content).
    rewrite Forall_forall in Hshape.
    destruct (Hshape line Hline) as (_ & Hcr & body & Hbody & Hl).
    split; [|split; [|exact (strip_ends line)]].
    + destruct (occurs LF (strip line)) eqn:E; [|reflexivity].
      rewrite <- Hbody. symmetry. apply occurs_strip.
      destruct Hl as [-> | ->]; [|exact E].
      now rewrite strip_append_space in E.
    + destruct (occurs CR (strip line)) eqn:E; [|reflexivity].
      rewrite <- Hcr. symmetry. now apply occurs_strip.
  - intros line Hline Hspace. apply in_map_iff. exists line.
    split; [|exact Hline]. unfold strip.
    now rewrite (lstrip_all_space line Hspace).
Qed.


(* ================================================================= *)
(** ** The gene-list subsetter *)

Lemma upper_char_fixes (c : ascii) :
  islower_char c = false -> upper_char c = c.
Proof. unfold upper_char. now intros ->. Qed.

Lemma no_lower_upper (s : string) : no_lower s = true -> upper s = s.
Proof.
  induction s as [|c s IH]; simpl; [reflexivity|].
  intros Hs. apply andb_true_iff in Hs. destruct Hs as [Hc Hs].
  apply negb_true_iff in Hc. now rewrite (upper_char_fixes c Hc), IH.
Qed.

Lemma contains_spec (df : DataFrame) (key : label) :
  contains df key = true <-> In key (columns df).
Proof.
  unfold contains. rewrite existsb_exists. split.
  - intros [c [Hin E]]. apply String.eqb_eq in E. now subst.
  - intros Hin. exists key. split; [exact Hin | apply String.eqb_refl].
Qed.

(** The loop appends, in file order, the normalised lines that are
    columns. *)
Lemma metab_loop (data : DataFrame) (lines : list string) (acc : list label) :
  fold_left (metab_step data) lines acc =
  acc ++ filter (contains data) (map (fun line => upper (strip line)) lines).
Proof.
  revert acc; induction lines as [|line lines IH]; intros acc; simpl.
  - now rewrite app_nil_r.
  - rewrite IH. unfold metab_step.
    destruct (contains data (upper (strip line))); [|reflexivity].
    now rewrite <- app_assoc.
Qed.

Lemma metab_genes_of_filter (data : DataFrame) (lines : list string) :
  metab_genes_of data lines =
  filter (contains data) (map (fun line => upper (strip line)) lines).
Proof. unfold metab_genes_of. now rewrite metab_loop. Qed.

Lemma in_metab_genes_of (data : DataFrame) (lines : list string) (g : label) :
  In g (metab_genes_of data lines) <->
  (exists line, In line lines /\ g = upper (strip line)) /\
  In g (columns data).
Proof.
  rewrite metab_genes_of_filter, filter_In, in_map_iff, contains_spec.
  split; intros [[line [H1 H2]] Hc]; (split; [exists line|exact Hc]);
    now split.
Qed.

Lemma in_metab_genes_from (data : DataFrame) (content : string) (g : label) :
  In g (metab_genes_from data content) <->
  (exists line body,
     In line (lines_of content) /\ stripped_of line body /\ g = upper body) /\
  In g (columns data).
Proof.
  unfold metab_genes_from. rewrite in_metab_genes_of. split.
  - intros [(line & Hline & ->) Hcol]. split; [|exact Hcol].
    exists line, (strip line). split; [exact Hline|].
    split; [apply strip_stripped_of | reflexivity].
  - intros [(line & body & Hline & Hbody & ->) Hcol]. split; [|exact Hcol].
    exists line. split; [exact Hline|].
    now rewrite (stripped_of_unique line body Hbody).
Qed.

(** C9, as amended. The subsetter upper-cases each line of the metabolic
    gene file, taken without the white space at its ends, before it tests
    column membership: a name is retained exactly when it is the
    upper-case form of such a line and a column; the upper-case form of an
    ASCII line is that line with every letter a to z replaced by its
    capital, it is ASCII and it holds no lower-case character; and a
    line, lower-case or not, is retained in upper case whenever that form
    is a column. *)
Theorem subsetter_uppercases (data : DataFrame) (content : string) :
  (forall g, In g (metab_genes_from data content) <->
     (exists line body,
        In line (lines_of content) /\ stripped_of line body /\
        g = upper body) /\
     In g (columns data)) /\
  (forall line body, In line (lines_of content) -> stripped_of line body ->
     ascii_text line = true ->
     upper body = capitals body /\
     ascii_text (upper body) = true /\ entirely_upper (upper body) = true) /\
  (forall line body, In line (lines_of content) -> stripped_of line body ->
     In (upper body) (columns data) ->
     In (upper body) (metab_genes_from data content)).
Proof.
  split; [|split].
  - intros g. apply in_metab_genes_from.
  - intros line body _ Hbody Hascii.
    split; [apply upper_capitals|].
    apply upper_ascii_entirely_upper.
    rewrite (stripped_of_unique line body Hbody).
    now apply ascii_text_strip.
  - intros line body Hline Hbody Hcol. apply in_metab_genes_from.
    split; [|exact Hcol]. now exists line, body.
Qed.

Lemma padded_line_stripped :
  stripped_of (append "  tp53 " (String "009" (String LF EmptyString)))
              "tp53".
Proof.
  exists "  "%string, (append " " (String "009" (String LF EmptyString))).
  split; [reflexivity|]. split; [reflexivity|]. split; [reflexivity|].
  split; intros c [= <-]; reflexivity.
Defined.

Lemma alphabet_line_stripped :
  stripped_of (append alphabet_lower (String LF EmptyString)) alphabet_lower.
Proof.
  exists EmptyString, (String LF EmptyString).
  split; [reflexivity|]. split; [reflexivity|]. split; [reflexivity|].
  split; intros c [= <-]; reflexivity.
Defined.

(** The line of [tp53] between blanks, a tab and CR LF is retained as
    [TP53], and the alphabet in lower case as the alphabet in upper
    case. *)
Lemma subsetter_uppercases_witness :
  lines_of padded_list =
    [append "  tp53 " (String "009" (String LF EmptyString));
     append alphabet_lower (String LF EmptyString)] /\
  metab_genes_from alphabet_genes padded_list
    = ["TP53"%string; alphabet_upper] /\
  In (upper "tp53") (metab_genes_from alphabet_genes padded_list) /\
  In (upper alphabet_lower) (metab_genes_from alphabet_genes padded_list) /\
  upper alphabet_lower = alphabet_upper /\
  entirely_upper (upper alphabet_lower) = true.
Proof.
  split; [reflexivity|]. split; [reflexivity|].
  split; [|split].
  - apply (proj2 (proj2 (subsetter_uppercases alphabet_genes padded_list))
             _ _ (or_introl eq_refl) padded_line_stripped).
    simpl. auto.
  - apply (proj2 (proj2 (subsetter_uppercases alphabet_genes padded_list))
             _ _ (or_intror (or_introl eq_refl)) alphabet_line_stripped).
    simpl. auto.
  - split; [reflexivity|].
    apply (proj1 (proj2 (subsetter_uppercases alphabet_genes padded_list))
             _ _ (or_intror (or_introl eq_refl)) alphabet_line_stripped).
    reflexivity.
Defined.

(** C9 as the specification words it fails on a name that Python cannot
    upper-case: the line holding U+00AA alone is retained as it is, and
    U+00AA is lower case. *)
Lemma uppercases_as_specified_fails :
  metab_genes_from ordinal_genes ordinal_list = [ordinal] /\
  upper ordinal = ordinal /\
  entirely_upper ordinal = false /\
  ~ uppercases_as_specified ordinal_genes ordinal_list.
Proof.
  split; [reflexivity|]. split; [reflexivity|]. split; [reflexivity|].
  intros (_ & Hupper & _).
  assert (H : entirely_upper ordinal = true).
  { apply Hupper. vm_compute. auto. }
  discriminate H.
Qed.

(** C5, as amended. Every name the subsetter returns is the upper-case
    form of a name written in the gene list file and is a column label of
    the table. *)
Theorem subsetter_sound (data : DataFrame) (content : string) (g : label) :
  In g (metab_genes_from data content) ->
  (exists name, In name (names_in_file content) /\ g = upper name) /\
  In g (columns data).
Proof.
  unfold metab_genes_from, names_in_file. intros Hg.
  apply in_metab_genes_of in Hg. destruct Hg as [[line [Hline ->]] Hcol].
  split; [|exact Hcol]. exists (strip line). split; [|reflexivity].
  now apply in_map.
Qed.

Lemma subsetter_sound_witness :
  (exists name, In name (names_in_file lower_case_list) /\
                "KRAS"%string = upper name) /\
  In "KRAS"%string (columns two_genes).
Proof.
  apply (subsetter_sound two_genes lower_case_list "KRAS"%string).
  vm_compute. auto.
Defined.

(** C5 as the specification words it fails on a lower-case list: [KRAS]
    is returned, and the file's names are [kras] and [myc]. *)
Lemma subsetter_as_specified_fails :
  metab_genes_from two_genes lower_case_list = ["KRAS"%string] /\
  names_in_file lower_case_list = ["kras"%string; "myc"%string] /\
  ~ subsetter_as_specified two_genes lower_case_list.
Proof.
  split; [reflexivity|]. split; [reflexivity|].
  intros Hspec. destruct (Hspec "KRAS"%string) as [Hin _].
  - vm_compute. auto.
  - vm_compute in Hin. intuition discriminate.
Qed.

(* ================================================================= *)
(** ** Selecting the pairs of the metabolic genes (notebook cell 5) *)

Lemma in_entries_under (s : Series) (key : label) (e : entry) :
  In e (entries_under s key) <-> In e s /\ fst (fst e) = key.
Proof.
  unfold entries_under. rewrite filter_In. split.
  - intros [He E]. apply String.eqb_eq in E. now split.
  - intros [He <-]. split; [exact He | apply String.eqb_refl].
Qed.

Lemma has_entry_spec (s : Series) (key : label) :
  existsb (fun e => String.eqb key (fst (fst e))) s = true <->
  exists e, In e s /\ fst (fst e) = key.
Proof.
  rewrite existsb_exists. split; intros [e [He E]]; exists e;
    (split; [exact He|]).
  - apply String.eqb_eq in E. now symmetry.
  - subst key. apply String.eqb_refl.
Qed.

Lemma getitem_level0_some (s : Series) (keys : list label) (prior : Series) :
  getitem_level0 s keys = Some prior ->
  (forall key, In key keys -> exists e, In e s /\ fst (fst e) = key) /\
  (forall e, In e prior <-> In e s /\ In (fst (fst e)) keys).
Proof.
  unfold getitem_level0.
  destruct (forallb _ _) eqn:E; [|discriminate].
  intros [= <-]. split.
  - intros key Hkey. apply has_entry_spec.
    rewrite forallb_forall in E. now apply E.
  - intros e. rewrite in_flat_map. split.
    + intros (key & Hkey & He). apply in_entries_under in He.
      destruct He as [He <-]. now split.
    + intros [He Hkey]. exists (fst (fst e)). split; [exact Hkey|].
      now apply in_entries_under.
Qed.



(* ================================================================= *)
(** ** The loop over the metabolic gene file *)

(** X9. The loop keeps the order and the repetitions of the file: its
    result is the list of the normalised lines that are columns, in file
    order, so it is never longer than the file, and reading two pieces of
    a file one after the other appends the results. *)
Theorem metab_genes_in_file_order (data : DataFrame)
    (lines more : list string) :
  metab_genes_of data lines
    = filter (contains data) (map (fun line => upper (strip line)) lines) /\
  metab_genes_of data (lines ++ more)
    = metab_genes_of data lines ++ metab_genes_of data more /\
  length (metab_genes_of data lines) <= length lines.
Proof.
  split; [apply metab_genes_of_filter|]. split.
  - rewrite !metab_genes_of_filter, map_app. apply filter_app.
  - rewrite metab_genes_of_filter.
    rewrite <- (length_map (fun line => upper (strip line)) lines).
    apply filter_length_le.
Qed.

(** The terminator of a line and the case of its letters do not matter
    to the loop. *)
Lemma upper_strip_terminated (body : string) :
  upper (strip (append body (String LF EmptyString))) = upper (strip body).
Proof. now rewrite strip_append_space. Qed.

(* ================================================================= *)
(** ** Cells: exceptions and the log *)

Local Open Scope cell_scope.

Lemma cell_result {A : Type} (c : Cell A) (w : world) :
  c w = (after c w, outcome c w).
Proof. unfold after, outcome. now destruct (c w). Qed.

Lemma bind_raises {A B : Type} {c : Cell A} (k : A -> Cell B)
    {w w' : world} {e : exn} :
  c w = (w', inl e) -> bind c k w = (w', inl e).
Proof. unfold bind. now intros ->. Qed.

Lemma bind_returns {A B : Type} {c : Cell A} (k : A -> Cell B)
    {w w' : world} {a : A} :
  c w = (w', inr a) -> bind c k w = k a w'.
Proof. unfold bind. now intros ->. Qed.

Lemma outcome_raises {A : Type} {c : Cell A} {w : world} {e : exn} :
  outcome c w = inl e -> c w = (after c w, inl e).
Proof. intros <-. apply cell_result. Qed.

Lemma skipn_length_app {A : Type} (l l' : list A) :
  skipn (length l) (l ++ l') = l'.
Proof. induction l as [|a l IH]; simpl; [reflexivity | exact IH]. Qed.

Lemma read_file_missing {path : string} {w : world} :
  files w path = None ->
  read_file path w = (logged w (EvRead path), inl (FileNotFoundError path)).
Proof. unfold read_file, bind, emit, logged. simpl. now intros ->. Qed.

Lemma read_file_present {path content : string} {w : world} :
  files w path = Some content ->
  read_file path w = (logged w (EvRead path), inr content).
Proof. unfold read_file, bind, emit, logged. simpl. now intros ->. Qed.

Section NotebookFacts.

Context `{Pandas}.

Lemma pd_read_hdf_result (path key : string) (w : world) :
  pd_read_hdf path key w =
  (logged w (EvRead path),
   match files w path with
   | None => inl (FileNotFoundError path)
   | Some bytes =>
       match hdf_get bytes key with
       | inl message => inl (CodecError path message)
       | inr df => inr df
       end
   end).
Proof.
  unfold pd_read_hdf. destruct (files w path) as [bytes|] eqn:E.
  - rewrite (bind_returns _ (read_file_present E)).
    unfold decoded. now destruct (hdf_get bytes key).
  - now rewrite (bind_raises _ (read_file_missing E)).
Qed.

Lemma cache_cell_recalculating (data : DataFrame) (w : world) :
  cache_cell true data w =
  match hdf_put (files w cache_path) cache_key (pearson data) with
  | inr bytes =>
      ({| files := fun p => if String.eqb p cache_path then Some bytes
                            else files w p;
          trace := trace w ++ [EvCorr; EvWrite cache_path] |},
       inr (pearson data))
  | inl message =>
      ({| files := files w;
          trace := trace w ++ [EvCorr; EvWrite cache_path] |},
       inl (CodecError cache_path message))
  end.
Proof.
  unfold cache_cell, corr_of, to_hdf, write_file, bind, emit, ret. simpl.
  rewrite <- app_assoc. simpl.
  destruct (hdf_put (files w cache_path) cache_key (pearson data));
    [|reflexivity].
  unfold logged. simpl. now rewrite <- app_assoc.
Qed.

End NotebookFacts.

(** C6, as amended. The correlation cache follows the manual switch and
    not the disk. With the switch off it opens the cache file once and
    computes nothing: the stored matrix is the result when the file exists
    and decodes, and the cell raises otherwise, FileNotFoundError when the
    file is missing. With the switch on it computes the correlation over
    the transposed table and opens the cache file for writing, reading
    nothing, whether or not a prior result exists: when the write
    succeeds the computed matrix is the result, the cache file holds the
    new bytes and no other file changes; when it fails, as on a cache
    file that is not HDF5, the cell raises and no file changes. *)
Theorem cache_follows_switch `{Pandas} (data : DataFrame) (w : world) :
  (cell_events (cache_cell false data) w = [EvRead cache_path] /\
   files (after (cache_cell false data) w) = files w /\
   outcome (cache_cell false data) w =
     match files w cache_path with
     | None => inl (FileNotFoundError cache_path)
     | Some bytes =>
         match hdf_get bytes cache_key with
         | inl message => inl (CodecError cache_path message)
         | inr corr => inr corr
         end
     end) /\
  (cell_events (cache_cell true data) w = [EvCorr; EvWrite cache_path] /\
   match hdf_put (files w cache_path) cache_key (pearson data) with
   | inr bytes =>
       outcome (cache_cell true data) w = inr (pearson data) /\
       files (after (cache_cell true data) w) cache_path = Some bytes /\
       (forall p, p <> cache_path ->
                  files (after (cache_cell true data) w) p = files w p)
   | inl message =>
       outcome (cache_cell true data) w
         = inl (CodecError cache_path message) /\
       files (after (cache_cell true data) w) = files w
   end) /\
  (forall recalc,
     (In (EvRead cache_path) (cell_events (cache_cell recalc data) w) <->
      recalc = false) /\
     (In EvCorr (cell_events (cache_cell recalc data) w) <->
      recalc = true)).
Proof.
  assert (Hoff : cell_events (cache_cell false data) w = [EvRead cache_path]).
  { unfold cell_events, after. simpl. rewrite pd_read_hdf_result. simpl.
    apply skipn_length_app. }
  assert (Hon : cell_events (cache_cell true data) w
                = [EvCorr; EvWrite cache_path]).
  { unfold cell_events, after. rewrite cache_cell_recalculating.
    destruct (hdf_put (files w cache_path) cache_key (pearson data));
      simpl; apply skipn_length_app. }
  split; [|split].
  - split; [exact Hoff|]. unfold after, outcome. simpl.
    rewrite pd_read_hdf_result. simpl. now split.
  - split; [exact Hon|]. unfold after, outcome.
    rewrite cache_cell_recalculating.
    destruct (hdf_put (files w cache_path) cache_key (pearson data))
      as [message | bytes]; simpl.
    + now split.
    + split; [reflexivity|]. split; [reflexivity|].
      intros p Hp. apply String.eqb_neq in Hp. now rewrite Hp.
  - intros [|]; [rewrite Hon | rewrite Hoff]; simpl; split; split;
      intros Hx; try reflexivity; try discriminate Hx; auto;
      intuition discriminate.
Qed.

(** With a stand-in that tells an HDF5 file from a text, recalculating
    over a cache file that holds a text computes, raises at the write and
    leaves the text in place. *)
Lemma cache_write_failure_example :
  cell_events (@cache_cell strict_pandas true example_corr) cache_only
    = [EvCorr; EvWrite cache_path] /\
  outcome (@cache_cell strict_pandas true example_corr) cache_only
    = inl (CodecError cache_path "HDF5ExtError") /\
  files (after (@cache_cell strict_pandas true example_corr) cache_only)
        cache_path
    = Some lower_case_list /\
  outcome (@cache_cell strict_pandas true example_corr) no_files
    = inr example_corr /\
  files (after (@cache_cell strict_pandas true example_corr) no_files)
        cache_path
    = Some "hdf"%string.
Proof. repeat split. Qed.

(** C6 as the specification words it fails both ways: as the notebook is
    written an empty directory makes the cell raise FileNotFoundError
    instead of computing, and with the switch on the cell computes
    although a cache file exists. *)
Lemma cache_as_specified_fails :
  (files no_files cache_path = None /\
   outcome (@cache_cell toy_pandas recalculate example_corr) no_files
     = inl (FileNotFoundError cache_path) /\
   ~ @cache_as_specified toy_pandas recalculate example_corr no_files) /\
  (files cache_only cache_path <> None /\
   cell_events (@cache_cell toy_pandas true example_corr) cache_only
     = [EvCorr; EvWrite cache_path] /\
   ~ @cache_as_specified toy_pandas true example_corr cache_only).
Proof.
  split; (split; [|split]).
  - reflexivity.
  - reflexivity.
  - intros [Hload _].
    assert (Hin : In (EvRead cache_path)
              (cell_events (@cache_cell toy_pandas recalculate example_corr)
                 no_files)) by (vm_compute; auto).
    apply Hload in Hin. now apply Hin.
  - discriminate.
  - reflexivity.
  - intros [_ Hcomp].
    assert (Hin : In EvCorr
              (cell_events (@cache_cell toy_pandas true example_corr)
                 cache_only)) by (vm_compute; auto).
    apply Hcomp in Hin. discriminate Hin.
Qed.

(* ================================================================= *)
(** ** Failing reads end the run *)

Section ReadFailures.

Context `{Pandas}.

Lemma pd_read_csv_missing (path : string) (w : world) :
  files w path = None ->
  pd_read_csv path w = (logged w (EvRead path), inl (FileNotFoundError path)).
Proof.
  intros E. unfold pd_read_csv.
  now rewrite (bind_raises _ (read_file_missing E)).
Qed.

Lemma pd_read_hdf_missing (path key : string) (w : world) :
  files w path = None ->
  pd_read_hdf path key w
  = (logged w (EvRead path), inl (FileNotFoundError path)).
Proof. intros E. rewrite pd_read_hdf_result. now rewrite E. Qed.

Lemma readlines_missing (path : string) (w : world) :
  files w path = None ->
  readlines path w = (logged w (EvRead path), inl (FileNotFoundError path)).
Proof.
  intros E. unfold readlines.
  now rewrite (bind_raises _ (read_file_missing E)).
Qed.

Lemma load_cell_raises (w : world) (e : exn) :
  outcome (pd_read_csv csv_path) w = inl e ->
  load_cell w = (after (pd_read_csv csv_path) w, inl e).
Proof.
  intros He. unfold load_cell.
  now rewrite (bind_raises _ (outcome_raises He)).
Qed.

Lemma gene_lists_cell_raises_prior (data : DataFrame) (w : world) (e : exn) :
  outcome (readlines prior_path) w = inl e ->
  gene_lists_cell data w = (after (readlines prior_path) w, inl e).
Proof.
  intros He. unfold gene_lists_cell.
  now rewrite (bind_raises _ (outcome_raises He)).
Qed.

Lemma gene_lists_cell_raises_metab (data : DataFrame) (w w' : world)
    (lines : list string) (e : exn) :
  readlines prior_path w = (w', inr lines) ->
  outcome (readlines metab_path) w' = inl e ->
  gene_lists_cell data w = (after (readlines metab_path) w', inl e).
Proof.
  intros Hprior He. unfold gene_lists_cell.
  rewrite (bind_returns _ Hprior).
  now rewrite (bind_raises _ (outcome_raises He)).
Qed.

End ReadFailures.

(** C8. Every read of a file raises FileNotFoundError on a missing file
    after a single attempt, and whatever the CSV loader, the cache reader
    or either gene-list read raises is the outcome of the whole run, which
    stops in the world the failing read left: the exception is neither
    caught nor replaced, and nothing runs after it. *)
Theorem read_failures_abort `{Pandas} (recalc : bool) (w : world) :
  (forall path key w0, files w0 path = None ->
     pd_read_csv path w0
       = (logged w0 (EvRead path), inl (FileNotFoundError path)) /\
     pd_read_hdf path key w0
       = (logged w0 (EvRead path), inl (FileNotFoundError path)) /\
     readlines path w0
       = (logged w0 (EvRead path), inl (FileNotFoundError path))) /\
  (forall e, outcome (pd_read_csv csv_path) w = inl e ->
     run_all recalc w = (after (pd_read_csv csv_path) w, inl e)) /\
  (forall e data w1,
     load_cell w = (w1, inr data) -> recalc = false ->
     outcome (pd_read_hdf cache_path cache_key) w1 = inl e ->
     run_all recalc w
       = (after (pd_read_hdf cache_path cache_key) w1, inl e)) /\
  (forall e data w1 corr w2,
     load_cell w = (w1, inr data) ->
     cache_cell recalc data w1 = (w2, inr corr) ->
     outcome (readlines prior_path) w2 = inl e ->
     run_all recalc w = (after (readlines prior_path) w2, inl e)) /\
  (forall e data w1 corr w2 lines w3,
     load_cell w = (w1, inr data) ->
     cache_cell recalc data w1 = (w2, inr corr) ->
     readlines prior_path w2 = (w3, inr lines) ->
     outcome (readlines metab_path) w3 = inl e ->
     run_all recalc w = (after (readlines metab_path) w3, inl e)).
Proof.
  split; [|split; [|split; [|split]]].
  - intros path key w0 E.
    split; [|split];
      [ now apply pd_read_csv_missing
      | now apply pd_read_hdf_missing
      | now apply readlines_missing ].
  - intros e He. unfold run_all.
    now rewrite (bind_raises _ (load_cell_raises _ _ He)).
  - intros e data w1 Hload -> He. unfold run_all.
    rewrite (bind_returns _ Hload).
    apply bind_raises. simpl. now apply outcome_raises.
  - intros e data w1 corr w2 Hload Hcache He. unfold run_all.
    rewrite (bind_returns _ Hload), (bind_returns _ Hcache).
    apply bind_raises. now apply gene_lists_cell_raises_prior.
  - intros e data w1 corr w2 lines w3 Hload Hcache Hprior He.
    unfold run_all.
    rewrite (bind_returns _ Hload), (bind_returns _ Hcache).
    apply bind_raises. now apply gene_lists_cell_raises_metab with lines.
Qed.

(** As the notebook is written: in an empty directory the run stops at
    the CSV loader; with the CSV file alone, at the cache reader; without
    [prior_genes.txt], at the first gene-list read; without
    [metabolic_genes.txt], at the second. *)
Lemma read_failures_abort_witness :
  @run_all toy_pandas recalculate no_files
    = (logged no_files (EvRead csv_path), inl (FileNotFoundError csv_path)) /\
  @run_all toy_pandas recalculate csv_only
    = (logged (logged csv_only (EvRead csv_path)) (EvRead cache_path),
       inl (FileNotFoundError cache_path)) /\
  outcome (@run_all toy_pandas recalculate) (directory [csv_path; cache_path])
    = inl (FileNotFoundError prior_path) /\
  outcome (@run_all toy_pandas recalculate)
          (directory [csv_path; cache_path; prior_path])
    = inl (FileNotFoundError metab_path).
Proof.
  split; [|split; [|split]].
  - exact (proj1 (proj2 (@read_failures_abort toy_pandas recalculate no_files))
             (FileNotFoundError csv_path) eq_refl).
  - exact (proj1 (proj2 (proj2
             (@read_failures_abort toy_pandas recalculate csv_only)))
             (FileNotFoundError cache_path) (transpose example_corr)
             (logged csv_only (EvRead csv_path)) eq_refl eq_refl eq_refl).
  - unfold outcome.
    rewrite (proj1 (proj2 (proj2 (proj2
               (@read_failures_abort toy_pandas recalculate
                  (directory [csv_path; cache_path])))))
               (FileNotFoundError prior_path) (transpose example_corr)
               (logged (directory [csv_path; cache_path]) (EvRead csv_path))
               example_corr
               (logged (logged (directory [csv_path; cache_path])
                          (EvRead csv_path)) (EvRead cache_path))
               eq_refl eq_refl eq_refl).
    reflexivity.
  - unfold outcome.
    rewrite (proj2 (proj2 (proj2 (proj2
               (@read_failures_abort toy_pandas recalculate
                  (directory [csv_path; cache_path; prior_path])))))
               (FileNotFoundError metab_path) (transpose example_corr)
               (logged (directory [csv_path; cache_path; prior_path])
                  (EvRead csv_path))
               example_corr
               (logged (logged (directory [csv_path; cache_path; prior_path])
                          (EvRead csv_path)) (EvRead cache_path))
               (lines_of lower_case_list)
               (logged (logged (logged
                  (directory [csv_path; cache_path; prior_path])
                  (EvRead csv_path)) (EvRead cache_path)) (EvRead prior_path))
               eq_refl eq_refl eq_refl eq_refl).
    reflexivity.
Defined.

(* ================================================================= *)
(** ** The run without failures *)

Lemma metab_genes_are_columns (data : DataFrame) (lines : list string) :
  forallb (contains data) (metab_genes_of data lines) = true.
Proof.
  apply forallb_forall. intros g Hg.
  rewrite metab_genes_of_filter in Hg. apply filter_In in Hg. apply Hg.
Qed.

(** [data[metab_genes]] never raises KeyError: the loop kept columns
    only. *)
Lemma metab_data_defined (data : DataFrame) (lines : list string) :
  exists metab_data,
    getitem_columns data (metab_genes_of data lines) = Some metab_data /\
    index metab_data = index data.
Proof.
  unfold getitem_columns. rewrite metab_genes_are_columns.
  eexists. split; reflexivity.
Qed.

(** When the four reads succeed and every metabolic gene has an entry in
    [large_corr] the run returns, and its results are those of the
    cells. *)
Lemma run_all_returns `{Pandas} (recalc : bool) (w w1 w2 w3 w4 : world)
    (data corr : DataFrame) (prior_lines metab_lines : list string)
    (prior_corrs : Series) :
  load_cell w = (w1, inr data) ->
  cache_cell recalc data w1 = (w2, inr corr) ->
  readlines prior_path w2 = (w3, inr prior_lines) ->
  readlines metab_path w3 = (w4, inr metab_lines) ->
  getitem_level0 (large_corr corr) (metab_genes_of data metab_lines)
    = Some prior_corrs ->
  exists res,
    run_all recalc w = (logged w4 EvCorr, inr res) /\
    r_data res = data /\ r_corr res = corr /\
    r_large_corr res = large_corr corr /\
    r_sort_corrs res = sort_corrs corr /\
    r_prior_genes res = prior_genes_of prior_lines /\
    r_metab_genes res = metab_genes_of data metab_lines /\
    r_prior_corrs res = prior_corrs /\
    getitem_columns data (metab_genes_of data metab_lines)
      = Some (r_metab_data res) /\
    r_metab_corr res = pearson (r_metab_data res) /\
    r_msort_corrs res = sort_corrs (r_metab_corr res).
Proof.
  intros Hload Hcache Hprior Hmetab Hlookup.
  destruct (metab_data_defined data metab_lines) as (metab_data & Hcols & _).
  unfold run_all.
  rewrite (bind_returns _ Hload), (bind_returns _ Hcache).
  assert (Hgenes : gene_lists_cell data w2
            = (w4, inr (prior_genes_of prior_lines,
                        metab_genes_of data metab_lines))).
  { unfold gene_lists_cell.
    rewrite (bind_returns _ Hprior), (bind_returns _ Hmetab). reflexivity. }
  rewrite (bind_returns _ Hgenes). simpl snd. simpl fst.
  rewrite Hlookup, Hcols. simpl.
  eexists. split; [reflexivity|]. simpl. repeat split; reflexivity.
Qed.


(** With every file in place the notebook, as written, runs to the end:
    it reads the four files in order and computes one correlation, that
    of the metabolic columns. *)
Lemma run_all_example :
  trace (after (@run_all toy_pandas recalculate) all_files)
    = [EvRead csv_path; EvRead cache_path; EvRead prior_path;
       EvRead metab_path; EvCorr] /\
  exists res, outcome (@run_all toy_pandas recalculate) all_files = inr res.
Proof. split; [reflexivity|]. eexists. reflexivity. Qed.

(* ================================================================= *)
(** ** The loader's transposition *)

Lemma nth_map_in {A B : Type} (f : A -> B) (l : list A) (n : nat)
    (d : B) (d' : A) :
  n < length l -> nth n (map f l) d = f (nth n l d').
Proof.
  intros Hn. rewrite (nth_indep _ d (f d')) by now rewrite length_map.
  apply map_nth.
Qed.

Lemma nth_map_seq {B : Type} (f : nat -> B) (n k : nat) (d : B) :
  k < n -> nth k (map f (seq 0 n)) d = f k.
Proof.
  intros Hk. rewrite (nth_map_in f _ k d 0) by now rewrite length_seq.
  now rewrite seq_nth.
Qed.

Lemma map_nth_seq_id {A : Type} (l : list A) (d : A) :
  map (fun i => nth i l d) (seq 0 (length l)) = l.
Proof.
  apply (nth_ext _ _ d d).
  - now rewrite length_map, length_seq.
  - intros n Hn. rewrite length_map, length_seq in Hn.
    now rewrite nth_map_seq.
Qed.

Lemma iloc_transpose (df : DataFrame) (i j : nat) :
  i < length (index df) -> j < length (columns df) ->
  iloc (transpose df) j i = iloc df i j.
Proof.
  intros Hi Hj. unfold iloc at 1. simpl.
  rewrite (nth_map_in _ _ j [] 0) by now rewrite length_seq.
  rewrite seq_nth by exact Hj. simpl. now rewrite nth_map_seq.
Qed.

Lemma transpose_rectangular (df : DataFrame) : rectangular (transpose df).
Proof.
  split; simpl.
  - now rewrite length_map, length_seq.
  - apply Forall_forall. intros row Hrow. apply in_map_iff in Hrow.
    destruct Hrow as [j [<- _]]. now rewrite length_map, length_seq.
Qed.

(** X2. Transposing twice gives the table back, for a rectangular
    table. *)
Theorem transpose_involutive (df : DataFrame) :
  rectangular df -> transpose (transpose df) = df.
Proof.
  intros [Hrows Hcols]. destruct df as [idx cols vals]. simpl in *.
  unfold transpose. simpl. f_equal.
  apply (nth_ext _ _ [] []).
  - now rewrite length_map, length_seq.
  - intros i Hi. rewrite length_map, length_seq in Hi.
    rewrite nth_map_seq by exact Hi.
    assert (Hrow : length (nth i vals []) = length cols).
    { rewrite Forall_forall in Hcols. apply Hcols, nth_In. lia. }
    rewrite <- (map_nth_seq_id (nth i vals []) nan).
    rewrite Hrow. apply map_ext_in. intros j Hj. apply in_seq in Hj.
    change (iloc (transpose (mkDataFrame idx cols vals)) j i
            = iloc (mkDataFrame idx cols vals) i j).
    apply iloc_transpose; simpl; lia.
Qed.

Lemma transpose_involutive_witness :
  rectangular two_genes /\ transpose (transpose two_genes) = two_genes.
Proof.
  assert (Hrect : rectangular two_genes).
  { split; [reflexivity | repeat constructor]. }
  split; [exact Hrect | exact (transpose_involutive two_genes Hrect)].
Defined.

(* ================================================================= *)
(** ** The pair filter on an arbitrary table *)

Lemma abs_not_nan (x : float) : F64.not_nan (abs x) -> F64.not_nan x.
Proof.
  rewrite !F64Facts.not_nan_spec, abs_spec. intros H E. apply H.
  now rewrite E.
Qed.

Lemma abs_one_cases (x : float) :
  abs x = F64.one -> x = F64.one \/ x = (-1)%float.
Proof.
  intros H. apply (f_equal Prim2SF) in H. rewrite abs_spec in H.
  destruct (Prim2SF x) as [s|s| |s m e] eqn:E; simpl in H;
    try (vm_compute in H; discriminate H).
  assert (Hx : Prim2SF x = S754_finite s 4503599627370496 (-52)).
  { rewrite E. vm_compute in H. now inversion H. }
  destruct s; [right | left]; apply Prim2SF_inj; rewrite Hx;
    vm_compute; reflexivity.
Qed.

Lemma keeps_not_nan (x : float) : keeps x = true -> F64.not_nan x.
Proof.
  intros Hk. apply keeps_spec in Hk. destruct Hk as [_ Hk].
  apply abs_not_nan. apply (F64Facts.ltb_not_nan_r F64.half). exact Hk.
Qed.

(** X4. Whatever the table, square or not and with missing values or
    not, the pair filter returns one entry per entry of [large_corr], in
    descending order, each a number above one half; no NaN cell and no
    cell equal to 1.0 is ever in [large_corr]. *)
Theorem pair_filter_any_table `{Pandas} (corr : DataFrame) :
  sorts_descending sort_values_desc ->
  StronglySorted desc (sort_corrs corr) /\
  length (sort_corrs corr) = length (large_corr corr) /\
  (forall k v, In (k, v) (sort_corrs corr) ->
     F64.not_nan v /\ F64.gtb v F64.half = true) /\
  (forall k x, In (k, x) (large_corr corr) ->
     In (k, x) (unstack corr) /\ F64.not_nan x /\
     (x =? F64.one)%float = false).
Proof.
  intros Hsort. split; [|split; [|split]].
  - apply (sort_corrs_sorted Hsort).
  - unfold sort_corrs. rewrite (Permutation_length (sort_perm Hsort _)).
    unfold series_abs. apply length_map.
  - intros k v Hin. apply (in_sort_corrs Hsort) in Hin.
    destruct Hin as (x & _ & Hk & ->). apply keeps_spec in Hk.
    destruct Hk as [_ Hk]. split; [|exact Hk].
    apply (F64Facts.ltb_not_nan_r F64.half). exact Hk.
  - intros k x Hin. apply in_large_corr in Hin. destruct Hin as [Hin Hk].
    split; [exact Hin|]. split; [now apply keeps_not_nan|].
    apply keeps_spec in Hk. destruct Hk as [Hk _]. unfold F64.neb in Hk.
    now apply negb_true_iff in Hk.
Qed.

Lemma pair_filter_any_table_witness :
  StronglySorted desc (@sort_corrs toy_pandas homonym_corr) /\
  length (@sort_corrs toy_pandas homonym_corr)
    = length (large_corr homonym_corr) /\
  (forall k v, In (k, v) (@sort_corrs toy_pandas homonym_corr) ->
     F64.not_nan v /\ F64.gtb v F64.half = true) /\
  (forall k x, In (k, x) (large_corr homonym_corr) ->
     In (k, x) (unstack homonym_corr) /\ F64.not_nan x /\
     (x =? F64.one)%float = false).
Proof.
  apply (@pair_filter_any_table toy_pandas homonym_corr).
  exact isort_desc_sorts.
Defined.

(** X5. A pair is reported with the value 1.0 exactly when its
    correlation in the table is -1.0: perfect anti-correlation is kept
    while perfect correlation is dropped with the diagonal. *)
Theorem reported_one_is_minus_one `{Pandas} (corr : DataFrame)
    (k : label * label) :
  sorts_descending sort_values_desc ->
  (In (k, F64.one) (sort_corrs corr) <->
   In (k, (-1)%float) (unstack corr)).
Proof.
  intros Hsort. rewrite (in_sort_corrs Hsort). split.
  - intros (x & Hin & Hk & Habs).
    destruct (abs_one_cases x (eq_sym Habs)) as [-> | ->].
    + discriminate Hk.
    + exact Hin.
  - intros Hin. exists (-1)%float.
    split; [exact Hin | split; reflexivity].
Qed.

Lemma reported_one_is_minus_one_witness :
  In (("A", "B")%string, F64.one) (@sort_corrs toy_pandas opposed_corr).
Proof.
  apply (proj2 (@reported_one_is_minus_one toy_pandas opposed_corr
                  ("A", "B")%string isort_desc_sorts)).
  vm_compute. auto.
Defined.

(* ================================================================= *)
(** ** Selecting columns by label (notebook cell 6) *)

Lemma positions_absent (l : list label) (s : nat) (key : label) :
  ~ In key l ->
  map fst (filter (fun jc : nat * label => String.eqb key (snd jc))
                  (combine (seq s (length l)) l)) = [].
Proof.
  revert s; induction l as [|a l IH]; intros s Hnot; simpl; [reflexivity|].
  destruct (String.eqb_spec key a) as [-> | Hne].
  - exfalso. apply Hnot. now left.
  - apply IH. intros Hin. apply Hnot. now right.
Qed.

Lemma positions_unique (l : list label) (s j : nat) (key : label) :
  NoDup l -> nth_error l j = Some key ->
  map fst (filter (fun jc : nat * label => String.eqb key (snd jc))
                  (combine (seq s (length l)) l)) = [s + j].
Proof.
  revert s j; induction l as [|a l IH]; intros s j Hnd Hj.
  - now destruct j.
  - inversion Hnd as [|? ? Ha Hl]; subst. simpl.
    destruct j as [|j]; simpl in Hj.
    + inversion Hj; subst. rewrite String.eqb_refl. simpl.
      rewrite (positions_absent l (S s) key Ha). f_equal. lia.
    + destruct (String.eqb_spec key a) as [-> | Hne].
      * exfalso. apply Ha. eapply nth_error_In. exact Hj.
      * rewrite (IH (S s) j Hl Hj). f_equal. lia.
Qed.

Lemma column_positions_unique (df : DataFrame) (j : nat) (key : label) :
  NoDup (columns df) -> nth_error (columns df) j = Some key ->
  column_positions df key = [j].
Proof.
  intros Hnd Hj. exact (positions_unique (columns df) 0 j key Hnd Hj).
Qed.

Lemma selected_positions (df : DataFrame) (keys : list label) :
  NoDup (columns df) -> (forall k, In k keys -> In k (columns df)) ->
  Forall2 (fun j key => nth_error (columns df) j = Some key)
          (flat_map (column_positions df) keys) keys.
Proof.
  intros Hnd. induction keys as [|key keys IH]; intros Hin; simpl.
  - constructor.
  - destruct (In_nth_error _ _ (Hin key (or_introl eq_refl))) as [j Hj].
    rewrite (column_positions_unique df j key Hnd Hj). simpl.
    constructor; [exact Hj|]. apply IH. intros k Hk. apply Hin. now right.
Qed.

Lemma positions_labels (cols : list label) (js : list nat)
    (keys : list label) :
  Forall2 (fun j key => nth_error cols j = Some key) js keys ->
  map (fun j => nth j cols EmptyString) js = keys.
Proof.
  induction 1 as [|j key js keys Hj _ IH]; simpl; [reflexivity|].
  rewrite IH. f_equal. now apply nth_error_nth.
Qed.

Lemma positions_nth (cols : list label) (js : list nat) (keys : list label)
    (k j : nat) (g : label) :
  NoDup cols ->
  Forall2 (fun j key => nth_error cols j = Some key) js keys ->
  nth_error keys k = Some g -> nth_error cols j = Some g ->
  nth_error js k = Some j.
Proof.
  intros Hnd Hpos. revert k.
  induction Hpos as [|j' key js keys Hj' _ IH]; intros k Hk Hj.
  - now destruct k.
  - destruct k as [|k]; simpl in *.
    + inversion Hk; subst. f_equal.
      apply (proj1 (NoDup_nth_error _) Hnd).
      * apply nth_error_Some. congruence.
      * congruence.
    + now apply IH.
Qed.

Lemma forallb_contains (df : DataFrame) (keys : list label) :
  forallb (contains df) keys = true <->
  (forall k, In k keys -> In k (columns df)).
Proof.
  rewrite forallb_forall. split; intros H k Hk;
    apply contains_spec; now apply H.
Qed.

Lemma nth_nil_nan (k : nat) : nth k (@nil float) nan = nan.
Proof. now destruct k. Qed.

(** X11. [metab_data = data[metab_genes]] never raises, its rows are
    those of [data], and it is rectangular when [data] is. When the column
    labels of [data] are unique, the columns of [metab_data] are the
    metabolic genes in file order, and each of them is the column of
    [data] with the same label. *)
Theorem metab_data_columns (data : DataFrame) (lines : list string) :
  exists metab_data,
    getitem_columns data (metab_genes_of data lines) = Some metab_data /\
    index metab_data = index data /\
    (rectangular data -> rectangular metab_data) /\
    (NoDup (columns data) ->
     columns metab_data = metab_genes_of data lines /\
     forall i k j g,
       nth_error (columns metab_data) k = Some g ->
       nth_error (columns data) j = Some g ->
       iloc metab_data i k = iloc data i j).
Proof.
  assert (Hcols := proj1 (forallb_contains _ _)
                     (metab_genes_are_columns data lines)).
  assert (Hpos := fun Hnd => selected_positions data _ Hnd Hcols).
  unfold getitem_columns. rewrite metab_genes_are_columns.
  set (keys := metab_genes_of data lines) in *.
  set (js := flat_map (column_positions data) keys) in *.
  eexists. split; [reflexivity|]. simpl.
  split; [reflexivity|]. split.
  - intros [Hrows Hrect]. split; simpl.
    + now rewrite length_map.
    + apply Forall_forall. intros row Hrow. apply in_map_iff in Hrow.
      destruct Hrow as (row' & <- & _). now rewrite !length_map.
  - intros Hnd. specialize (Hpos Hnd).
    assert (Hlabels : map (fun j => nth j (columns data) EmptyString) js
                      = keys).
    { exact (positions_labels _ _ _ Hpos). }
    split; [exact Hlabels|].
    intros i k j g Hk Hj. rewrite Hlabels in Hk. unfold iloc. simpl.
    assert (Hjs : nth_error js k = Some j).
    { exact (positions_nth _ _ _ k j g Hnd Hpos Hk Hj). }
    destruct (Nat.lt_ge_cases i (length (values data))) as [Hi | Hi].
    + rewrite (nth_map_in _ _ i [] []) by exact Hi.
      rewrite (nth_map_in _ _ k nan 0)
        by (apply nth_error_Some; congruence).
      now rewrite (nth_error_nth _ _ 0 Hjs).
    + rewrite (nth_overflow (map _ _)) by now rewrite length_map.
      rewrite (nth_overflow (values data)) by exact Hi.
      now rewrite !nth_nil_nan.
Qed.

(** On the table of KRAS and TP53 with the list [kras], [myc] the
    selection is the column of KRAS. *)
Lemma metab_data_columns_witness :
  NoDup (columns two_genes) /\
  exists metab_data,
    getitem_columns two_genes
      (metab_genes_of two_genes (lines_of lower_case_list))
      = Some metab_data /\
    columns metab_data = ["KRAS"%string].
Proof.
  assert (Hnd : NoDup (columns two_genes))
    by (repeat constructor; simpl; intuition discriminate).
  split; [exact Hnd|].
  destruct (metab_data_columns two_genes (lines_of lower_case_list))
    as (metab_data & Hget & _ & _ & Hcols).
  exists metab_data. split; [exact Hget|].
  exact (proj1 (Hcols Hnd)).
Defined.

(* ================================================================= *)
(** ** Pairs of the metabolic genes on a symmetric table *)

Lemma large_corr_mirrored (corr : DataFrame) (c r : label) (x : float) :
  correlation_matrix corr ->
  In ((c, r), x) (large_corr corr) -> In ((r, c), x) (large_corr corr).
Proof.
  intros Hcm Hin. apply in_large_corr in Hin. destruct Hin as [Hin Hk].
  destruct (mirrored_value corr c r x Hcm Hin) as (y & Hy & Hxy).
  apply (keeps_same_value x y Hk) in Hxy. subst y.
  apply in_large_corr. now split.
Qed.

(** X12. On a correlation matrix, when [large_corr[metab_genes]] does
    not raise KeyError, the selection by first label loses no pair of a
    metabolic gene: a pair of [large_corr] one of whose labels is in
    [metab_genes] is in [prior_corrs] in one orientation at least. *)
Theorem prior_corrs_cover_metabolic_pairs (corr : DataFrame)
    (metab_genes : list label) (prior_corrs : Series) (c r : label)
    (x : float) :
  correlation_matrix corr ->
  getitem_level0 (large_corr corr) metab_genes = Some prior_corrs ->
  In ((c, r), x) (large_corr corr) ->
  In c metab_genes \/ In r metab_genes ->
  In ((c, r), x) prior_corrs \/ In ((r, c), x) prior_corrs.
Proof.
  intros Hcm Hsome Hin.
  destruct (getitem_level0_some _ _ _ Hsome) as [_ Hprior].
  intros [Hc | Hr].
  - left. apply Hprior. now split.
  - right. apply Hprior. split; [|exact Hr].
    now apply large_corr_mirrored.
Qed.

Lemma prior_corrs_cover_metabolic_pairs_witness :
  getitem_level0 (large_corr example_corr) ["C"%string]
    = Some [(("C", "B")%string, iloc example_corr 2 1)] /\
  (In (("B", "C")%string, iloc example_corr 2 1)
      [(("C", "B")%string, iloc example_corr 2 1)] \/
   In (("C", "B")%string, iloc example_corr 2 1)
      [(("C", "B")%string, iloc example_corr 2 1)]).
Proof.
  split; [reflexivity|].
  apply (prior_corrs_cover_metabolic_pairs example_corr ["C"%string]
           [(("C", "B")%string, iloc example_corr 2 1)]
           "B"%string "C"%string (iloc example_corr 2 1)).
  - exact example_corr_is_correlation_matrix.
  - reflexivity.
  - vm_compute. auto 6.
  - right. simpl. auto.
Defined.

(* ================================================================= *)
(** ** The whole run, case by case *)

Lemma files_logged (w : world) (e : event) : files (logged w e) = files w.
Proof. reflexivity. Qed.

Section RunCases.

Context `{Pandas}.

Lemma pd_read_csv_result (path : string) (w : world) :
  pd_read_csv path w =
  (logged w (EvRead path),
   match files w path with
   | None => inl (FileNotFoundError path)
   | Some content =>
       match parse_csv content with
       | inl message => inl (CodecError path message)
       | inr df => inr df
       end
   end).
Proof.
  unfold pd_read_csv. destruct (files w path) as [content|] eqn:E.
  - rewrite (bind_returns _ (read_file_present E)).
    unfold decoded. now destruct (parse_csv content).
  - now rewrite (bind_raises _ (read_file_missing E)).
Qed.

Lemma readlines_result (path : string) (w : world) :
  readlines path w =
  (logged w (EvRead path),
   match files w path with
   | None => inl (FileNotFoundError path)
   | Some content => inr (lines_of content)
   end).
Proof.
  unfold readlines. destruct (files w path) as [content|] eqn:E.
  - now rewrite (bind_returns _ (read_file_present E)).
  - now rewrite (bind_raises _ (read_file_missing E)).
Qed.

Lemma cache_cell_on (data : DataFrame) (w : world) :
  cache_cell true data w =
  match hdf_put (files w cache_path) cache_key (pearson data) with
  | inl message =>
      (logged (logged w EvCorr) (EvWrite cache_path),
       inl (CodecError cache_path message))
  | inr bytes =>
      (cached (logged (logged w EvCorr) (EvWrite cache_path)) bytes,
       inr (pearson data))
  end.
Proof.
  unfold cache_cell, corr_of, to_hdf, write_file, bind, emit, ret. simpl.
  now destruct (hdf_put (files w cache_path) cache_key (pearson data)).
Qed.

Lemma cache_cell_off (data : DataFrame) (w : world) :
  cache_cell false data w =
  (logged w (EvRead cache_path),
   match files w cache_path with
   | None => inl (FileNotFoundError cache_path)
   | Some bytes =>
       match hdf_get bytes cache_key with
       | inl message => inl (CodecError cache_path message)
       | inr corr => inr corr
       end
   end).
Proof. apply pd_read_hdf_result. Qed.

(** The run, unfolded into the cases of its reads. *)
Lemma run_all_cases (recalc : bool) (w : world) :
  run_all recalc w =
  let w1 := logged w (EvRead csv_path) in
  match files w csv_path with
  | None => (w1, inl (FileNotFoundError csv_path))
  | Some csv_text =>
    match parse_csv csv_text with
    | inl message => (w1, inl (CodecError csv_path message))
    | inr table =>
      let data := transpose table in
      match cache_cell recalc data w1 with
      | (w2, inl e) => (w2, inl e)
      | (w2, inr corr) =>
        let w3 := logged w2 (EvRead prior_path) in
        match files w2 prior_path with
        | None => (w3, inl (FileNotFoundError prior_path))
        | Some prior_text =>
          let w4 := logged w3 (EvRead metab_path) in
          match files w2 metab_path with
          | None => (w4, inl (FileNotFoundError metab_path))
          | Some metab_text =>
            let metab_genes := metab_genes_of data (lines_of metab_text) in
            match getitem_level0 (large_corr corr) metab_genes with
            | None => (w4, inl KeyError)
            | Some prior_corrs =>
              match getitem_columns data metab_genes with
              | None => (w4, inl KeyError)
              | Some metab_data =>
                  (logged w4 EvCorr,
                   inr (results_of data corr prior_text metab_text
                          prior_corrs metab_data))
              end
            end
          end
        end
      end
    end
  end.
Proof.
  cbv zeta. unfold run_all, load_cell.
  unfold bind at 1. unfold bind at 1. rewrite pd_read_csv_result.
  destruct (files w csv_path) as [csv_text|]; [|reflexivity].
  destruct (parse_csv csv_text) as [message|table]; [reflexivity|].
  cbv beta iota. unfold ret at 1. cbv beta iota.
  unfold bind at 1.
  destruct (cache_cell recalc (transpose table) (logged w (EvRead csv_path)))
    as [w2 [e|corr]]; [reflexivity|].
  unfold gene_lists_cell.
  unfold bind at 1. unfold bind at 1. rewrite readlines_result.
  destruct (files w2 prior_path) as [prior_text|]; [|reflexivity].
  cbv beta iota. unfold bind at 1. rewrite readlines_result.
  rewrite files_logged.
  destruct (files w2 metab_path) as [metab_text|]; [|reflexivity].
  cbv beta iota. unfold ret at 1. cbv beta iota. cbn [fst snd].
  unfold bind at 1.
  destruct (getitem_level0 (large_corr corr)
              (metab_genes_of (transpose table) (lines_of metab_text)))
    as [prior_corrs|]; [|reflexivity].
  cbv beta iota. unfold or_key_error at 1. cbv beta iota.
  unfold bind at 1.
  destruct (getitem_columns (transpose table)
              (metab_genes_of (transpose table) (lines_of metab_text)))
    as [metab_data|]; reflexivity.
Qed.

End RunCases.

Lemma trace_logged (w : world) (e : event) :
  trace (logged w e) = trace w ++ [e].
Proof. reflexivity. Qed.

Lemma files_cached_other (w : world) (bytes p : string) :
  p <> cache_path -> files (cached w bytes) p = files w p.
Proof.
  intros Hp. simpl. destruct (String.eqb_spec p cache_path); congruence.
Qed.

Lemma files_cached_prior (w : world) (bytes : string) :
  files (cached w bytes) prior_path = files w prior_path.
Proof. reflexivity. Qed.

Lemma files_cached_metab (w : world) (bytes : string) :
  files (cached w bytes) metab_path = files w metab_path.
Proof. reflexivity. Qed.

Lemma trace_cached (w : world) (bytes : string) :
  trace (cached w bytes) = trace w.
Proof. reflexivity. Qed.

Lemma metab_data_some (data : DataFrame) (text : string) :
  exists metab_data,
    getitem_columns data (metab_genes_of data (lines_of text))
    = Some metab_data.
Proof.
  destruct (metab_data_defined data (lines_of text)) as (md & Hmd & _).
  now exists md.
Qed.

(** Every case of the run at once: [run_cases recalc w] leaves one goal
    per way the run can end. *)
Ltac run_cases recalc w :=
  rewrite (run_all_cases recalc w); cbv zeta;
  destruct (files w csv_path) as [csv_text|] eqn:Ecsv;
  [ destruct (parse_csv csv_text) as [csv_message|table] eqn:Eparse;
    [ | destruct recalc;
        [ rewrite cache_cell_on; rewrite ?files_logged;
          destruct (hdf_put (files w cache_path) cache_key _)
            as [put_message|new_bytes] eqn:Eput;
          [ | rewrite ?files_cached_prior, ?files_cached_metab,
                      ?files_logged ]
        | rewrite cache_cell_off; rewrite ?files_logged;
          destruct (files w cache_path) as [bytes|] eqn:Ecache;
          [ destruct (hdf_get bytes cache_key) as [hdf_message|corr]
              eqn:Ehdf | ];
          rewrite ?files_logged ];
        try (destruct (files w prior_path) as [prior_text|] eqn:Eprior;
             [ destruct (files w metab_path) as [metab_text|] eqn:Emetab;
               [ destruct (getitem_level0 _ _) as [prior_corrs|]
                   eqn:Elookup;
                 [ let md := fresh "metab_data" in
                   let Hmd := fresh "Hmd" in
                   destruct (metab_data_some (transpose table) metab_text)
                     as [md Hmd];
                   rewrite Hmd
                 | ]
               | ]
             | ]) ]
  | ].

(* ================================================================= *)
(** ** The lookup of the metabolic genes in the pair list *)





Lemma run_all_corr `{Pandas} (recalc : bool) (w : world) (res : Results) :
  outcome (run_all recalc) w = inr res ->
  r_large_corr res = large_corr (r_corr res) /\
  r_sort_corrs res = sort_corrs (r_corr res) /\
  (recalc = false ->
   exists bytes,
     files w cache_path = Some bytes /\
     hdf_get bytes cache_key = inr (r_corr res)).
Proof.
  unfold outcome. run_cases recalc w; simpl; intros Hres;
    try discriminate Hres; inversion Hres; subst; clear Hres; simpl;
    (split; [reflexivity|]); (split; [reflexivity|]).
  - discriminate.
  - intros _. now exists bytes.
Qed.

Lemma all_files_returns :
  { res | outcome (@run_all toy_pandas recalculate) all_files = inr res }.
Proof. eexists. reflexivity. Defined.

(** X14. As the notebook is written, with the switch off, the pair lists
    depend on the cache file alone: two runs that return in directories
    with the same cache file give the same correlation matrix and the
    same pair lists, whatever their CSV files hold. *)
Theorem pair_lists_from_cache_alone `{Pandas} (w w' : world)
    (res res' : Results) :
  files w cache_path = files w' cache_path ->
  outcome (run_all recalculate) w = inr res ->
  outcome (run_all recalculate) w' = inr res' ->
  r_corr res = r_corr res' /\
  r_large_corr res = r_large_corr res' /\
  r_sort_corrs res = r_sort_corrs res'.
Proof.
  intros Hsame Hres Hres'.
  destruct (run_all_corr _ _ _ Hres) as (Hl & Hs & Hoff).
  destruct (run_all_corr _ _ _ Hres') as (Hl' & Hs' & Hoff').
  destruct (Hoff eq_refl) as (b & Hb & Hc).
  destruct (Hoff' eq_refl) as (b' & Hb' & Hc').
  assert (Hcorr : r_corr res = r_corr res').
  { rewrite Hsame, Hb' in Hb. inversion Hb; subst. congruence. }
  rewrite Hl, Hs, Hl', Hs', Hcorr. now repeat split.
Qed.

Lemma other_csv_returns :
  { res | outcome (@run_all toy_pandas recalculate) other_csv = inr res }.
Proof. eexists. reflexivity. Defined.

Lemma pair_lists_from_cache_alone_witness :
  files all_files csv_path <> files other_csv csv_path /\
  r_corr (proj1_sig all_files_returns)
    = r_corr (proj1_sig other_csv_returns) /\
  r_large_corr (proj1_sig all_files_returns)
    = r_large_corr (proj1_sig other_csv_returns) /\
  r_sort_corrs (proj1_sig all_files_returns)
    = r_sort_corrs (proj1_sig other_csv_returns).
Proof.
  split; [discriminate|].
  exact (@pair_lists_from_cache_alone toy_pandas all_files other_csv
           (proj1_sig all_files_returns) (proj1_sig other_csv_returns)
           eq_refl (proj2_sig all_files_returns)
           (proj2_sig other_csv_returns)).
Defined.

(** X15. The run writes to no file but the cache file, and to none at
    all when the switch is off: whether it returns or raises, every other
    file holds afterwards what it held before. *)
Theorem run_all_writes_cache_only `{Pandas} (recalc : bool) (w : world) :
  (forall p, p <> cache_path ->
     files (after (run_all recalc) w) p = files w p) /\
  (recalc = false -> files (after (run_all recalc) w) = files w).
Proof.
  unfold after. split.
  - intros p Hp. run_cases recalc w; simpl fst;
      rewrite ?files_logged; try reflexivity;
      rewrite (files_cached_other _ _ p Hp); reflexivity.
  - intros ->. rewrite (run_all_cases false w). cbv zeta.
    destruct (files w csv_path) as [csv_text|]; [|reflexivity].
    destruct (parse_csv csv_text) as [message|table]; [reflexivity|].
    rewrite cache_cell_off, ?files_logged.
    destruct (files w cache_path) as [bytes|]; [|reflexivity].
    destruct (hdf_get bytes cache_key) as [message|corr]; [reflexivity|].
    rewrite ?files_logged.
    destruct (files w prior_path) as [prior_text|]; [|reflexivity].
    destruct (files w metab_path) as [metab_text|]; [|reflexivity].
    destruct (getitem_level0 _ _); [|reflexivity].
    destruct (getitem_columns _ _); reflexivity.
Qed.

(** X16. The run does its work in one fixed order and never repeats a
    step: what it logs is an initial part of the schedule - the CSV file,
    then the cache (read when the switch is off, computed and written when
    it is on), then the two gene lists, then the correlation of the
    metabolic columns - and it is the whole schedule exactly when the run
    returns. *)
Theorem run_all_follows_schedule `{Pandas} (recalc : bool) (w : world) :
  exists rest,
    schedule recalc = cell_events (run_all recalc) w ++ rest /\
    (rest = [] <-> exists res, outcome (run_all recalc) w = inr res).
Proof.
  unfold cell_events, after, outcome.
  run_cases recalc w; simpl fst; simpl snd;
    repeat (rewrite trace_logged || rewrite trace_cached);
    rewrite <- ?app_assoc, skipn_length_app;
    unfold schedule; cbn [app];
    (eexists; split; [reflexivity|]);
    split;
    try discriminate;
    try (intros [res Hres]; discriminate Hres);
    try (intros _; eexists; reflexivity);
    try (intros _; reflexivity).
  all: destruct recalc; discriminate.
Qed.

Lemma no_lower_append (s t : string) :
  no_lower (append s t) = no_lower s && no_lower t.
Proof.
  induction s as [|a s IH]; simpl; [reflexivity|].
  now rewrite IH, andb_assoc.
Qed.

Lemma no_lower_strip (s : string) :
  no_lower s = true -> no_lower (strip s) = true.
Proof.
  intros Hs. destruct (strip_decompose s) as (pre & post & E).
  rewrite E, !no_lower_append in Hs.
  apply andb_true_iff in Hs. destruct Hs as [_ Hs].
  apply andb_true_iff in Hs. apply Hs.
Qed.

(** X17. For a gene list without lower-case characters the upper-casing
    changes nothing: the subsetter returns exactly the names of the file
    that are columns, in file order, so every returned name is then a
    name of the file. *)
Theorem subsetter_on_upper_case_list (data : DataFrame) (content : string) :
  Forall (fun line => entirely_upper line = true) (lines_of content) ->
  metab_genes_from data content
    = filter (contains data) (names_in_file content) /\
  (forall g, In g (metab_genes_from data content) ->
     In g (names_in_file content) /\ In g (columns data)).
Proof.
  intros Hupper.
  assert (E : metab_genes_from data content
              = filter (contains data) (names_in_file content)).
  { unfold metab_genes_from, names_in_file.
    rewrite metab_genes_of_filter. f_equal. apply map_ext_in.
    intros line Hline. rewrite Forall_forall in Hupper.
    apply no_lower_upper, no_lower_strip, entirely_upper_no_lower.
    now apply Hupper. }
  split; [exact E|]. intros g Hg. rewrite E in Hg.
  apply filter_In in Hg. destruct Hg as [Hin Hc].
  split; [exact Hin | now apply contains_spec].
Qed.

Lemma subsetter_on_upper_case_list_witness :
  metab_genes_from two_genes upper_case_list
    = filter (contains two_genes) (names_in_file upper_case_list) /\
  (forall g, In g (metab_genes_from two_genes upper_case_list) ->
     In g (names_in_file upper_case_list) /\ In g (columns two_genes)).
Proof.
  apply (subsetter_on_upper_case_list two_genes upper_case_list).
  repeat constructor.
Defined.

(* ================================================================= *)
(** ** A metabolic gene without a pair *)



